(** * letsencrypt-cloudflare-hook: a shallow embedding of [hook.py]

    The hook is a sequential Python script that talks to three outside
    parties: the Cloudflare REST API (through [requests]), a DNS resolver
    (through [dns.resolver]) and the clock ([time.sleep]).  The embedding
    keeps the script's control flow and data as they are written and makes
    the outside world explicit:

    - a [Platform] gives the answers of the outside world (HTTP responses,
      DNS answers, the public-suffix lookup of [tld.get_fld]) as functions
      of an environment state that the script threads through its calls;
    - every function of the script is a computation in the monad [M], which
      threads the environment state, accumulates the list of observable
      events (log lines, HTTP requests, DNS queries, sleeps) and propagates
      Python exceptions, [sys.exit] included;
    - the only unbounded loop of the script, the propagation poll, takes a
      fuel argument. *)

From Stdlib Require Import ZArith Ascii String List Lia Bool.
From stdpp Require Import base option list gmap strings pretty.

Local Open Scope Z_scope.
Set Warnings "-register-all".

(** ** Python values *)

(** A Python [str] is modelled by the string of bytes of its UTF-8
    encoding; a [bytes] object is a string of bytes as well. *)
Definition bytes := string.

(** The characters written [\033] and [\n] in the source. *)
Definition ESC : string := String (ascii_of_nat 27) EmptyString.
Definition LF : string := String (ascii_of_nat 10) EmptyString.

(** The result of [r.json()]: a parsed JSON document.  An object holds the
    entries of the parsed [dict] (distinct keys); numbers are integers. *)
Inductive json : Type :=
| JNull
| JBool (b : bool)
| JNum (z : Z)
| JStr (s : string)
| JArr (l : list json)
| JObj (kv : list (string * json)).

(** Exceptions the script can meet.  [SystemExit] is what [sys.exit] raises;
    [DNSException] stands for [dns.exception.DNSException] and its
    subclasses, and carries the text [str(e)] of the exception. *)
Inductive dns_failure : Type :=
| DnsTimeout
| DnsNXDOMAIN
| DnsNoAnswer
| DnsNoNameservers          (* what SERVFAIL from every server ends in *)
| DnsOtherFailure.

Inductive exn : Type :=
| KeyError (key : string)
| IndexError
| ValueError
| TypeError
| AttributeError
| UnicodeDecodeError
| HTTPError (status : Z)
| RequestException (msg : string)
| JSONDecodeError
| TldError (msg : string)
| DNSException (f : dns_failure) (msg : string)
| OtherException (name : string)
| SystemExit (code : Z).

(** [str(e)], where the model carries it. *)
Definition exn_text (e : exn) : string :=
  match e with
  | DNSException _ msg => msg
  | RequestException msg => msg
  | TldError msg => msg
  | _ => ""
  end.

(** Outcome of running a piece of the script: a value, an exception that
    propagates, or the poll loop still spinning when the fuel ran out. *)
Inductive result (A : Type) : Type :=
| Ok (a : A)
| Raise (e : exn)
| OutOfFuel.
Arguments Ok {A} a.
Arguments Raise {A} e.
Arguments OutOfFuel {A}.

(** Truth value of a JSON value in an [if]. *)
Definition truthy (j : json) : bool :=
  match j with
  | JNull => false
  | JBool b => b
  | JNum z => negb (z =? 0)
  | JStr s => negb (String.eqb s "")
  | JArr l => match l with [] => false | _ => true end
  | JObj kv => match kv with [] => false | _ => true end
  end.

Fixpoint assoc_get {V : Type} (k : string) (kv : list (string * V)) : option V :=
  match kv with
  | [] => None
  | (k', v) :: rest => if String.eqb k k' then Some v else assoc_get k rest
  end.

(** [d.get(key, default)]: only a [dict] has the method. *)
Definition dict_get (j : json) (key : string) (default : json) : result json :=
  match j with
  | JObj kv => Ok (match assoc_get key kv with Some v => v | None => default end)
  | _ => Raise AttributeError
  end.

(** [x[key]] with a string key. *)
Definition getitem_key (j : json) (key : string) : result json :=
  match j with
  | JObj kv => match assoc_get key kv with
               | Some v => Ok v
               | None => Raise (KeyError key)
               end
  | _ => Raise TypeError
  end.

(** [x[0]].  For a non-empty [str] Python gives its first character; every
    use in the script subscripts the result with ['id'] next, which a [str]
    of any content rejects, so the first byte stands for it. *)
Definition getitem_0 (j : json) : result json :=
  match j with
  | JArr (x :: _) => Ok x
  | JArr [] => Raise IndexError
  | JStr (String c _) => Ok (JStr (String c EmptyString))
  | JStr EmptyString => Raise IndexError
  | JObj _ => Raise (KeyError "0")
  | JNull | JBool _ | JNum _ => Raise TypeError
  end.

(** ** Strings: [str.split()], [int(str)], UTF-8 *)

(** White space of [str.split()] within ASCII: tab, line feed, vertical
    tab, form feed, carriage return, the separators 0x1C-0x1F and space.
    (Python also splits at the non-ASCII Unicode spaces; bytes above 0x7F
    are not separators here.) *)
Definition is_space (c : ascii) : bool :=
  let n := nat_of_ascii c in
  ((9 <=? n) && (n <=? 13) || (28 <=? n) && (n <=? 32))%nat.

(** [split_from cur s]: the fields of [s], where [cur] holds, reversed, the
    characters of the field being read. *)
Definition flush (cur : list ascii) (fields : list string) : list string :=
  match cur with
  | [] => fields
  | _ => string_of_list_ascii (rev cur) :: fields
  end.

Fixpoint split_from (cur : list ascii) (s : string) : list string :=
  match s with
  | EmptyString => flush cur []
  | String c s' =>
      if is_space c then flush cur (split_from [] s')
      else split_from (c :: cur) s'
  end.

Definition split (s : string) : list string := split_from [] s.

Definition digit_of (c : ascii) : option Z :=
  let n := nat_of_ascii c in
  if ((48 <=? n) && (n <=? 57))%nat then Some (Z.of_nat (n - 48)) else None.

(** Digits with single underscores between them, as [int] accepts. *)
Fixpoint parse_digits (need_digit : bool) (acc : Z) (s : string) : option Z :=
  match s with
  | EmptyString => if need_digit then None else Some acc
  | String c s' =>
      match digit_of c with
      | Some d => parse_digits false (10 * acc + d) s'
      | None =>
          if Ascii.eqb c "_" && negb need_digit then parse_digits true acc s'
          else None
      end
  end.

Fixpoint lstrip (s : string) : string :=
  match s with
  | String c s' => if is_space c then lstrip s' else s
  | EmptyString => EmptyString
  end.

Definition string_rev (s : string) : string :=
  string_of_list_ascii (rev (list_ascii_of_string s)).

Definition strip (s : string) : string :=
  string_rev (lstrip (string_rev (lstrip s))).

(** [int(s)] for a decimal literal in ASCII: surrounding white space, an
    optional sign, digits.  [None] stands for [ValueError]. *)
Definition py_int (s : string) : option Z :=
  match strip s with
  | String "-" s' => Z.opp <$> parse_digits true 0 s'
  | String "+" s' => parse_digits true 0 s'
  | s' => parse_digits true 0 s'
  end.

(** Strict UTF-8, as [bytes.decode('utf-8')] checks it. *)
Definition in_range (lo hi : nat) (c : ascii) : bool :=
  let n := nat_of_ascii c in ((lo <=? n) && (n <=? hi))%nat.

Definition cont (c : ascii) : bool := in_range 128 191 c.

Fixpoint valid_utf8 (s : string) : bool :=
  match s with
  | EmptyString => true
  | String c0 s1 =>
      if in_range 0 127 c0 then valid_utf8 s1
      else match s1 with
      | EmptyString => false
      | String c1 s2 =>
          if in_range 194 223 c0 then cont c1 && valid_utf8 s2
          else match s2 with
          | EmptyString => false
          | String c2 s3 =>
              if in_range 224 239 c0 then
                (if in_range 224 224 c0 then in_range 160 191 c1
                 else if in_range 237 237 c0 then in_range 128 159 c1
                 else cont c1)
                && cont c2 && valid_utf8 s3
              else match s3 with
              | EmptyString => false
              | String c3 s4 =>
                  in_range 240 244 c0
                  && (if in_range 240 240 c0 then in_range 144 191 c1
                      else if in_range 244 244 c0 then in_range 128 143 c1
                      else cont c1)
                  && cont c2 && cont c3 && valid_utf8 s4
              end
          end
      end
  end.

(** [b.decode('utf-8')]; [None] stands for [UnicodeDecodeError]. *)
Definition decode_utf8 (b : bytes) : option string :=
  if valid_utf8 b then Some b else None.

(** ** The outside world *)

(** A header dictionary passed as [headers=] to [requests], in insertion
    order. *)
Definition Headers := list (string * string).

Inductive Method : Type := GET | POST | DELETE.

Record Request : Type := mkRequest {
  req_method : Method;
  req_url : string;
  req_headers : Headers;
  req_json : option json          (* the [json=] payload of a POST *)
}.

(** What a call of [requests.get/post/delete] comes back with: an exception
    of the transport, or a response with its status code and, when the body
    parses as JSON, the parsed body. *)
Inductive HttpOutcome : Type :=
| HttpRaise (e : exn)
| HttpResponse (status : Z) (body : option json).

(** One TXT rdata of an answer: its [strings] tuple. *)
Definition Rdata := list bytes.

(** What [resolve(name, 'TXT')] comes back with. *)
Inductive DnsOutcome : Type :=
| DnsRaise (e : exn)
| DnsAnswer (rrset : list Rdata).

Inductive LogLevel : Type := DEBUG | INFO | ERROR.

(** Observable events, in the order the script causes them. *)
Inductive Event : Type :=
| EvLog (lvl : LogLevel) (msg : string)
| EvPrint (msg : string)
| EvHttp (req : Request) (out : HttpOutcome)
| EvDns (nameservers : option (list string)) (qname : string) (out : DnsOutcome)
| EvSleep (secs : Z).

(** The libraries and services the script calls.  [Env] is the state of the
    outside world (the provider's records, the resolvers' caches, the
    clock); each call may change it.  [get_fld] is [tld.get_fld], [py_repr]
    is Python's rendering of a value that is not a [str] inside
    [str.format]. *)
Record Platform : Type := mkPlatform {
  Env : Type;
  get_fld : string -> exn + string;
  http_send : Request -> Env -> HttpOutcome * Env;
  dns_resolve : option (list string) -> string -> Env -> DnsOutcome * Env;
  time_passes : Z -> Env -> Env;
  py_repr : json -> string
}.

(** ** The monad of the script *)

Section Script.

Variable P : Platform.

(** A computation takes the state of the world and gives an outcome, the
    new state and the events it caused. *)
Definition M (A : Type) : Type := Env P -> result A * Env P * list Event.

Definition ret {A} (a : A) : M A := fun s => (Ok a, s, []).

Definition raise {A} (e : exn) : M A := fun s => (Raise e, s, []).

Definition bind {A B} (m : M A) (f : A -> M B) : M B :=
  fun s =>
    match m s with
    | (Ok a, s1, t1) => let '(r, s2, t2) := f a s1 in (r, s2, t1 ++ t2)
    | (Raise e, s1, t1) => (Raise e, s1, t1)
    | (OutOfFuel, s1, t1) => (OutOfFuel, s1, t1)
    end.

Notation "x <- m ;; k" := (bind m (fun x => k))
  (at level 100, m at next level, right associativity).
Notation "m ;;; k" := (bind m (fun _ => k))
  (at level 100, right associativity).

(** [try: m except <class>: h], where [handles e] tells whether [e] belongs
    to the class. *)
Definition try_except {A} (m : M A) (handles : exn -> bool) (h : exn -> M A) : M A :=
  fun s =>
    match m s with
    | (Raise e, s1, t1) =>
        if handles e then let '(r, s2, t2) := h e s1 in (r, s2, t1 ++ t2)
        else (Raise e, s1, t1)
    | other => other
    end.

Definition is_KeyError (e : exn) : bool :=
  match e with KeyError _ => true | _ => false end.

Definition is_DNSException (e : exn) : bool :=
  match e with DNSException _ _ => true | _ => false end.

Definition lift {A} (r : result A) : M A := fun s => (r, s, []).

Definition emit (e : Event) : M unit := fun s => (Ok tt, s, [e]).

Definition log (lvl : LogLevel) (msg : string) : M unit := emit (EvLog lvl msg).

Definition print (msg : string) : M unit := emit (EvPrint msg).

Definition sys_exit {A} (code : Z) : M A := raise (SystemExit code).

(** [for x in xs: body x] *)
Fixpoint for_each {A} (xs : list A) (body : A -> M unit) : M unit :=
  match xs with
  | [] => ret tt
  | x :: rest => body x ;;; for_each rest body
  end.

(** [requests.<method>(url, headers=..., json=...)] *)
Definition requests (req : Request) : M HttpOutcome :=
  fun s => let '(out, s') := http_send P req s in (Ok out, s', [EvHttp req out]).

(** The response object [r] of a call that did not raise. *)
Definition requests_call (req : Request) : M (Z * option json) :=
  out <- requests req ;;
  match out with
  | HttpRaise e => raise e
  | HttpResponse status body => ret (status, body)
  end.

(** [r.raise_for_status()] *)
Definition raise_for_status (r : Z * option json) : M unit :=
  if (400 <=? fst r) && (fst r <? 600) then raise (HTTPError (fst r)) else ret tt.

(** [r.json()] *)
Definition response_json (r : Z * option json) : M json :=
  match snd r with
  | Some j => ret j
  | None => raise JSONDecodeError
  end.

(** [resolver.resolve(name, 'TXT')], on the given name servers or on the
    system's. *)
Definition resolve (nameservers : option (list string)) (qname : string) : M (list Rdata) :=
  fun s =>
    let '(out, s') := dns_resolve P nameservers qname s in
    (match out with DnsRaise e => Raise e | DnsAnswer rr => Ok rr end,
     s', [EvDns nameservers qname out]).

(** [time.sleep(secs)]: a negative length is a [ValueError]. *)
Definition time_sleep (secs : Z) : M unit :=
  if secs <? 0 then raise ValueError
  else fun s => (Ok tt, time_passes P secs s, [EvSleep secs]).

(** [str(x)] as [str.format] applies it to an argument. *)
Definition py_str (j : json) : string :=
  match j with
  | JStr s => s
  | _ => py_repr P j
  end.

(** ** Module level of [hook.py]: credentials and resolver list *)

(** The module's global variables once the module body has run. *)
Record Globals : Type := mkGlobals {
  environ : gmap string string;        (* [os.environ] *)
  debug_level : bool;                  (* the logger is at DEBUG *)
  CF_HEADERS : list Headers;
  dns_servers : option (list string)   (* [None] is the source's [False] *)
}.

(** [os.environ[key]] *)
Definition environ_item (env : gmap string string) (key : string) : M string :=
  match env !! key with
  | Some v => ret v
  | None => raise (KeyError key)
  end.

Definition bearer_headers (api_token : string) : Headers :=
  [("Authorization", "Bearer " +:+ api_token);
   ("Content-Type", "application/json")].

Definition email_key_headers (email api_key : string) : Headers :=
  [("X-Auth-Email", email);
   ("X-Auth-Key", api_key);
   ("Content-Type", "application/json")].

(** Lines 22-41: the value of [CF_HEADERS] after the two nested [try]
    blocks. *)
Definition load_credentials (env : gmap string string) : M (list Headers) :=
  try_except
    (tokens <- environ_item env "CF_API_TOKEN" ;;
     ret (map bearer_headers (split tokens)))
    is_KeyError
    (fun _ =>
       try_except
         (emails <- environ_item env "CF_EMAIL" ;;
          keys <- environ_item env "CF_KEY" ;;
          ret (map (fun ek => email_key_headers (fst ek) (snd ek))
                   (combine (split emails) (split keys))))
         is_KeyError
         (fun _ =>
            log ERROR " + Unable to locate Cloudflare credentials in environment!" ;;;
            log ERROR " + Please set the CF_API_TOKEN environment variable with your API token." ;;;
            sys_exit 1)).

(** Lines 16-51: the module body. *)
Definition module_init (env : gmap string string) : M Globals :=
  let debug := match env !! "CF_DEBUG" with
               | Some v => negb (String.eqb v "")
               | None => false
               end in
  headers <- load_credentials env ;;
  (match headers with
   | [] => log ERROR " + No valid Cloudflare credentials found in environment!" ;;;
           sys_exit 1
   | _ => ret tt
   end) ;;;
  servers <- try_except
               (v <- environ_item env "CF_DNS_SERVERS" ;; ret (Some (split v)))
               is_KeyError
               (fun _ => ret None) ;;
  ret {| environ := env; debug_level := debug;
         CF_HEADERS := headers; dns_servers := servers |}.

Variable G : Globals.

(** ** Propagation check *)

(** [[b.decode('utf-8') for b in rdata.strings]] *)
Fixpoint decode_strings (strings : list bytes) : result (list string) :=
  match strings with
  | [] => Ok []
  | b :: rest =>
      match decode_utf8 b with
      | None => Raise UnicodeDecodeError
      | Some s =>
          match decode_strings rest with
          | Ok l => Ok (s :: l)
          | Raise e => Raise e
          | OutOfFuel => OutOfFuel
          end
      end
  end.

(** The [for rdata in dns_response] loop with its [return True], and the
    [return False] the function ends with. *)
Fixpoint token_in_answer (token : string) (dns_response : list Rdata) : result bool :=
  match dns_response with
  | [] => Ok false
  | rdata :: rest =>
      match decode_strings rdata with
      | Ok decoded =>
          if existsb (String.eqb token) decoded then Ok true
          else token_in_answer token rest
      | Raise e => Raise e
      | OutOfFuel => OutOfFuel
      end
  end.

Definition _has_dns_propagated (domain_name token : string) : M bool :=
  try_except
    (dns_response <- match dns_servers G with
                     | Some (ns :: more) => resolve (Some (ns :: more)) domain_name
                     | _ => resolve None domain_name
                     end ;;
     lift (token_in_answer token dns_response))
    is_DNSException
    (fun e =>
       log DEBUG (" + " +:+ exn_text e +:+ ". Retrying query...") ;;;
       ret false).

(** ** Provider client *)

Definition zones_url (tld : string) : string :=
  "https://api.cloudflare.com/client/v4/zones?name=" +:+ tld.

Definition lookup_url (zone_id name token : string) : string :=
  "https://api.cloudflare.com/client/v4/zones/" +:+ zone_id +:+
  "/dns_records?type=TXT&name=" +:+ name +:+ "&content=" +:+ token.

Definition records_url (zone_id : string) : string :=
  "https://api.cloudflare.com/client/v4/zones/" +:+ zone_id +:+ "/dns_records".

Definition record_url (zone_id record_id : string) : string :=
  "https://api.cloudflare.com/client/v4/zones/" +:+ zone_id +:+
  "/dns_records/" +:+ record_id.

(** The [for auth in CF_HEADERS] loop of [_get_zone_id] and what follows
    it. *)
Fixpoint zone_search (tld url : string) (auths : list Headers) : M (Headers * json) :=
  match auths with
  | auth :: rest =>
      r <- requests_call (mkRequest GET url auth None) ;;
      raise_for_status r ;;;
      j <- response_json r ;;
      r' <- lift (dict_get j "result" (JArr [])) ;;
      if truthy r' then
        first <- lift (getitem_0 r') ;;
        id <- lift (getitem_key first "id") ;;
        ret (auth, id)
      else zone_search tld url rest
  | [] =>
      (if bool_decide (is_Some (environ G !! "CF_API_TOKEN")) then
         log ERROR (ESC +:+ "[91mERROR:" +:+ ESC +:+
                    "[0m None of the provided API Tokens have the required permissions for the domain " +:+ tld)
       else
         log ERROR (ESC +:+ "[91mERROR:" +:+ ESC +:+ "[0m Domain " +:+ tld +:+
                    " not found in any Cloudflare account")) ;;;
      sys_exit 1
  end.

Definition _get_zone_id (domain : string) : M (Headers * json) :=
  tld <- lift (match get_fld P ("http://" +:+ domain) with
               | inl e => Raise e
               | inr t => Ok t
               end) ;;
  zone_search tld (zones_url tld) (CF_HEADERS G).

Definition is_IndexError (e : exn) : bool :=
  match e with IndexError => true | _ => false end.

(** The record id, or [JNull] for the bare [return] ([None]). *)
Definition _get_txt_record_id (auth : Headers) (zone_id : json) (name token : string) : M json :=
  let url := lookup_url (py_str zone_id) name token in
  r <- requests_call (mkRequest GET url auth None) ;;
  raise_for_status r ;;;
  try_except
    (j <- response_json r ;;
     res <- lift (getitem_key j "result") ;;
     first <- lift (getitem_0 res) ;;
     lift (getitem_key first "id"))
    is_IndexError
    (fun _ =>
       log DEBUG (" + Unable to locate record named " +:+ name) ;;;
       ret JNull).

Definition record_name (domain : string) : string :=
  "_acme-challenge" +:+ "." +:+ domain.

Definition create_payload (name token : string) : json :=
  JObj [("type", JStr "TXT"); ("name", JStr name);
        ("content", JStr token); ("ttl", JNum 120)].

Definition create_txt_record (args : list string) : M unit :=
  match args with
  | [domain; challenge; token] =>
      log DEBUG (" + Creating TXT record: " +:+ domain +:+ " => " +:+ token) ;;;
      log DEBUG (" + Challenge: " +:+ challenge) ;;;
      az <- _get_zone_id domain ;;
      let auth := fst az in
      let zone_id := snd az in
      let name := record_name domain in
      record_id <- _get_txt_record_id auth zone_id name token ;;
      if truthy record_id then
        log DEBUG " + TXT record exists, skipping creation."
      else
        let url := records_url (py_str zone_id) in
        let payload := create_payload name token in
        r <- requests_call (mkRequest POST url auth (Some payload)) ;;
        raise_for_status r ;;;
        j <- response_json r ;;
        res <- lift (getitem_key j "result") ;;
        record_id <- lift (getitem_key res "id") ;;
        log DEBUG (" + TXT record created, CFID: " +:+ py_str record_id)
  | _ => raise ValueError            (* the unpacking of [args] fails *)
  end.

(** [args[i]] on a list *)
Definition list_item (args : list string) (i : nat) : M string :=
  match args !! i with
  | Some x => ret x
  | None => raise IndexError
  end.

Definition delete_txt_record (args : list string) : M unit :=
  domain <- list_item args 0 ;;
  token <- list_item args 2 ;;
  if String.eqb domain "" then
    log INFO " + http_request() error in letsencrypt.sh?"
  else
    az <- _get_zone_id domain ;;
    let auth := fst az in
    let zone_id := snd az in
    let name := record_name domain in
    record_id <- _get_txt_record_id auth zone_id name token ;;
    if truthy record_id then
      let url := record_url (py_str zone_id) (py_str record_id) in
      r <- requests_call (mkRequest DELETE url auth None) ;;
      raise_for_status r ;;;
      log DEBUG (" + Deleted TXT " +:+ name +:+ ", CFID " +:+ py_str record_id)
    else
      log DEBUG (" + No TXT " +:+ name +:+ " with token " +:+ token).

(** ** Orchestrator and notification handlers *)

Definition deploy_cert (args : list string) : M unit :=
  match args with
  | [domain; privkey_pem; cert_pem; fullchain_pem; chain_pem; timestamp] =>
      log DEBUG (" + ssl_certificate: " +:+ fullchain_pem) ;;;
      log DEBUG (" + ssl_certificate_key: " +:+ privkey_pem)
  | _ => raise ValueError
  end.

Definition unchanged_cert (args : list string) : M unit := ret tt.

Definition invalid_challenge (args : list string) : M unit :=
  domain <- list_item args 0 ;;
  let result := String.concat " " (drop 1 args) in
  log DEBUG (" + invalid_challenge for " +:+ domain) ;;;
  log DEBUG (" + Full error: " +:+ result).

(** [range(0, stop, step)] *)
Fixpoint range_from (count start step : nat) : list nat :=
  match count with
  | O => []
  | S count' => start :: range_from count' (start + step)%nat step
  end.

Definition py_range (stop step : nat) : list nat :=
  range_from ((stop + step - 1) / step)%nat 0%nat step.

(** [args[i:j]] *)
Definition slice (args : list string) (i j : nat) : list string :=
  take (j - i) (drop i args).

(** The [while] loop of [create_all_txt_records], run for at most [fuel]
    polls. *)
Fixpoint wait_propagated (fuel : nat) (name token : string) : M unit :=
  match fuel with
  | O => lift OutOfFuel
  | S fuel' =>
      propagated <- _has_dns_propagated name token ;;
      if negb propagated then
        log INFO " + DNS not propagated, waiting 30s..." ;;;
        time_sleep 30 ;;;
        wait_propagated fuel' name token
      else ret tt
  end.

(** [int(os.environ.get('CF_SETTLE_TIME', '10'))] *)
Definition settle_time_setting : M Z :=
  match py_int (default "10" (environ G !! "CF_SETTLE_TIME")) with
  | Some n => ret n
  | None => raise ValueError
  end.

Definition create_all_txt_records (fuel : nat) (args : list string) : M unit :=
  settle_time <- settle_time_setting ;;
  let X := 3%nat in
  for_each (py_range (length args) X)
    (fun i => create_txt_record (slice args i (i + X))) ;;;
  log INFO (" + Settling down for " +:+ pretty settle_time +:+ "s...") ;;;
  time_sleep settle_time ;;;
  for_each (py_range (length args) X)
    (fun i =>
       domain <- list_item args i ;;
       token <- list_item args (i + 2) ;;
       let name := record_name domain in
       wait_propagated fuel name token).

Definition delete_all_txt_records (args : list string) : M unit :=
  let X := 3%nat in
  for_each (py_range (length args) X)
    (fun i => delete_txt_record (slice args i (i + X))).

Definition startup_hook (args : list string) : M unit :=
  let has k := bool_decide (is_Some (environ G !! k)) in
  if has "CF_API_TOKEN" && (has "CF_EMAIL" || has "CF_KEY") then
    print (ESC +:+ "[93m + Warning: Both CF_API_TOKEN and CF_EMAIL/CF_KEY environment variables are set." +:+ LF +:+
           "   CF_EMAIL and CF_KEY environment variables are no longer needed for this script." +:+ LF +:+
           "   You may consider removing them from your environment." +:+ ESC +:+ "[0m")
  else if has "CF_EMAIL" || has "CF_KEY" then
    print (ESC +:+ "[93m + Using Cloudflare account email/key authentication (CF_EMAIL and CF_KEY environment variables)." +:+ LF +:+
           "   We are planning to deprecate this authentication method. Please switch to API tokens for enhanced security." +:+ LF +:+
           "   See the README for more information." +:+ ESC +:+ "[0m")
  else ret tt.

Definition exit_hook (args : list string) : M unit := ret tt.

(** The table [ops] of [main]. *)
Definition ops (fuel : nat) (name : string) : option (list string -> M unit) :=
  if String.eqb name "deploy_challenge" then Some (create_all_txt_records fuel)
  else if String.eqb name "clean_challenge" then Some delete_all_txt_records
  else if String.eqb name "deploy_cert" then Some deploy_cert
  else if String.eqb name "unchanged_cert" then Some unchanged_cert
  else if String.eqb name "invalid_challenge" then Some invalid_challenge
  else if String.eqb name "startup_hook" then Some startup_hook
  else if String.eqb name "exit_hook" then Some exit_hook
  else None.

Definition main (fuel : nat) (argv : list string) : M unit :=
  op <- list_item argv 0 ;;
  match ops fuel op with
  | Some handler =>
      log INFO (" + CloudFlare hook executing: " +:+ op) ;;;
      handler (drop 1 argv)
  | None => ret tt
  end.

End Script.

Arguments ret {P A} a.
Arguments raise {P A} e.
Arguments bind {P A B} m f.
Arguments lift {P A} r.
Arguments for_each {P A} xs body.
Arguments try_except {P A} m handles h.

(** The script run as a process: the module body, then [main(sys.argv[1:])]. *)
Definition hook (P : Platform) (env : gmap string string) (fuel : nat)
    (sys_argv : list string) : M P unit :=
  bind (module_init P env) (fun G => main P G fuel (drop 1 sys_argv)).

(** Exit status of the process: 0 after a normal end, the code given to
    [sys.exit], 1 after any other uncaught exception. *)
Definition exit_status {A} (r : result A) : option Z :=
  match r with
  | Ok _ => Some 0
  | Raise (SystemExit code) => Some code
  | Raise _ => Some 1
  | OutOfFuel => None
  end.

(** ** A model of the provider and of the resolvers

    The claims about two successive calls and about propagation need an
    outside world that remembers what the script did to it.  [Cloudflare]
    is such a world: accounts with the zones they may use, zones, TXT
    records, a clock advanced by [time.sleep], and resolvers that see the
    records from a given time on.  It is one instance of [Platform]; the
    properties that do not depend on the provider's behaviour are proved
    for every platform. *)
Module Cloudflare.

Record TxtRecord : Type := mkTxt {
  rec_collection : string;     (* URL of the zone's record collection *)
  rec_name : string;
  rec_content : string;
  rec_id : string
}.

Record World : Type := mkWorld {
  accounts : list (Headers * list string);   (* credentials, ids of their zones *)
  zones : list (string * string);            (* registrable domain, zone id *)
  records : list TxtRecord;
  serial : nat;                              (* records created so far *)
  clock : Z;                                 (* seconds slept so far *)
  visible_at : Z                             (* resolvers see the records from then on *)
}.

Fixpoint strip_prefix (p s : string) : option string :=
  match p, s with
  | EmptyString, _ => Some s
  | String a p', String b s' => if Ascii.eqb a b then strip_prefix p' s' else None
  | String _ _, EmptyString => None
  end.

Definition credentials (h : Headers) (w : World) : option (list string) :=
  snd <$> find (fun a => bool_decide (fst a = h)) (accounts w).

Definition id_object (id : string) : json := JObj [("id", JStr id)].

Definition success (result : json) : HttpOutcome :=
  HttpResponse 200 (Some (JObj [("success", JBool true); ("result", result)])).

Definition failure (status : Z) : HttpOutcome :=
  HttpResponse status (Some (JObj [("success", JBool false); ("result", JNull)])).

Definition may_use (zs : list string) (collection : string) : bool :=
  existsb (fun z => String.eqb collection (records_url z)) zs.

(** The record is what a lookup at [url] asks for. *)
Definition answers (url : string) (r : TxtRecord) : bool :=
  String.eqb url (rec_collection r +:+ "?type=TXT&name=" +:+ rec_name r +:+
                  "&content=" +:+ rec_content r).

Definition found (zs : list string) (url : string) (w : World) : list TxtRecord :=
  filter (fun r => may_use zs (rec_collection r) && answers url r = true) (records w).

Definition is_record_url (url : string) (r : TxtRecord) : bool :=
  String.eqb url (rec_collection r +:+ "/" +:+ rec_id r).

Definition http (req : Request) (w : World) : HttpOutcome * World :=
  match credentials (req_headers req) w with
  | None => (failure 403, w)
  | Some zs =>
      match req_method req with
      | GET =>
          match strip_prefix "https://api.cloudflare.com/client/v4/zones?name=" (req_url req) with
          | Some name =>
              let mine := filter (fun z => String.eqb (fst z) name &&
                                           bool_decide (snd z ∈ zs) = true) (zones w) in
              (success (JArr (map (fun z => id_object (snd z)) mine)), w)
          | None =>
              (success (JArr (map (fun r => id_object (rec_id r)) (found zs (req_url req) w))), w)
          end
      | POST =>
          if may_use zs (req_url req) then
            match req_json req with
            | Some (JObj kv) =>
                match assoc_get "name" kv, assoc_get "content" kv with
                | Some (JStr name), Some (JStr content) =>
                    let id := "rec" +:+ pretty (serial w) in
                    (success (id_object id),
                     mkWorld (accounts w) (zones w)
                             (records w ++ [mkTxt (req_url req) name content id])
                             (S (serial w)) (clock w) (visible_at w))
                | _, _ => (failure 400, w)
                end
            | _ => (failure 400, w)
            end
          else (failure 404, w)
      | DELETE =>
          let doomed r := may_use zs (rec_collection r) && is_record_url (req_url req) r in
          match filter (fun r => doomed r = true) (records w) with
          | [] => (failure 404, w)
          | r :: _ =>
              (success (id_object (rec_id r)),
               mkWorld (accounts w) (zones w)
                       (filter (fun r => doomed r = false) (records w))
                       (serial w) (clock w) (visible_at w))
          end
      end
  end.

(** Every resolver gives the same view: nothing before [visible_at], the
    contents of the records of that name afterwards. *)
Definition dns (nameservers : option (list string)) (qname : string) (w : World)
    : DnsOutcome * World :=
  if clock w <? visible_at w then
    (DnsRaise (DNSException DnsNXDOMAIN "The DNS query name does not exist"), w)
  else
    match filter (fun r => String.eqb (rec_name r) qname = true) (records w) with
    | [] => (DnsRaise (DNSException DnsNXDOMAIN "The DNS query name does not exist"), w)
    | rs => (DnsAnswer (map (fun r => [rec_content r]) rs), w)
    end.

Definition sleep (secs : Z) (w : World) : World :=
  mkWorld (accounts w) (zones w) (records w) (serial w) (clock w + secs) (visible_at w).

(** The platform, for a given public-suffix lookup. *)
Definition platform (fld : string -> exn + string) : Platform :=
  {| Env := World;
     get_fld := fld;
     http_send := http;
     dns_resolve := dns;
     time_passes := sleep;
     py_repr := fun _ => "" |}.

(** A lookup that takes a bare registrable domain for the domain given. *)
Definition fld_of_host (u : string) : exn + string :=
  match strip_prefix "http://" u with
  | Some host => if String.eqb host "" then inl (TldError "bad url") else inr host
  | None => inl (TldError "bad url")
  end.

(** No stored record has an empty id. *)
Definition ids_present (w : World) : Prop :=
  Forall (fun r => rec_id r <> "") (records w).

(** Two worlds with the same accounts and zones. *)
Definition same_directory (w w' : World) : Prop :=
  accounts w = accounts w' /\ zones w = zones w'.

(** No stored record answers a lookup of this name and content, in any
    zone. *)
Definition unanswered (w : World) (name token : string) : Prop :=
  forall zone_id,
    Forall (fun r => answers (lookup_url zone_id name token) r = false) (records w).

(** No stored record sits at the URL of the record created next. *)
Definition next_id_free (w : World) : Prop :=
  forall zone_id,
    Forall (fun r => is_record_url (record_url zone_id ("rec" +:+ pretty (serial w))) r = false)
           (records w).

End Cloudflare.

(** ** Vocabulary of the properties *)

Definition is_log (e : Event) : bool :=
  match e with EvLog _ _ | EvPrint _ => true | _ => false end.

(** A call over the network: to the provider or to a resolver. *)
Definition is_network (e : Event) : bool :=
  match e with EvHttp _ _ | EvDns _ _ _ => true | _ => false end.

Definition is_http (e : Event) : bool :=
  match e with EvHttp _ _ => true | _ => false end.

Definition is_dns (e : Event) : bool :=
  match e with EvDns _ _ _ => true | _ => false end.

(** A create call: a POST to the provider. *)
Definition is_create_call (e : Event) : bool :=
  match e with
  | EvHttp req _ => match req_method req with POST => true | _ => false end
  | _ => false
  end.

(** A request that only reads: a GET to the provider. *)
Definition is_read_call (e : Event) : bool :=
  match e with
  | EvHttp req _ => match req_method req with GET => true | _ => false end
  | _ => false
  end.

(** The events other than log lines. *)
Definition actions (t : list Event) : list Event :=
  List.filter (fun e => negb (is_log e)) t.

Definition create_calls (t : list Event) : nat :=
  length (List.filter is_create_call t).

(** *** White-space separated tokens *)

Definition all_space (s : string) : Prop :=
  forallb is_space (list_ascii_of_string s) = true.

Definition no_space (s : string) : Prop :=
  forallb (fun c => negb (is_space c)) (list_ascii_of_string s) = true.

Definition starts_blank (s : string) : Prop :=
  match s with
  | EmptyString => True
  | String c _ => is_space c = true
  end.

(** [fields v toks]: the string [v] is made of the tokens [toks], in this
    order, separated by white space, with optional white space around. *)
Inductive fields : string -> list string -> Prop :=
| fields_nil ws : all_space ws -> fields ws []
| fields_cons ws tok rest toks :
    all_space ws -> tok <> EmptyString -> no_space tok -> starts_blank rest ->
    fields rest toks ->
    fields (ws +:+ tok +:+ rest) (tok :: toks).

(** *** Batches *)

(** The complete leading groups of three of a flat argument list. *)
Fixpoint triples (args : list string) : list (list string) :=
  match args with
  | d :: c :: t :: rest => [d; c; t] :: triples rest
  | _ => []
  end.

(** Record name and token to poll for, for a group of three. *)
Definition poll_target (triple : list string) : string * string :=
  match triple with
  | [d; _; t] => (record_name d, t)
  | _ => (EmptyString, EmptyString)
  end.

(** *** Propagation *)

(** Some record of the answer has a string that decodes to the token. *)
Definition answer_has_token (token : string) (rrset : list Rdata) : bool :=
  existsb (fun rdata =>
             existsb (fun b => bool_decide (decode_utf8 b = Some token)) rdata)
          rrset.

Definition all_decodable (rrset : list Rdata) : Prop :=
  Forall (Forall (fun b => valid_utf8 b = true)) rrset.

(** The name servers [_has_dns_propagated] asks: the configured list when it
    has an entry, the system's otherwise. *)
Definition asked_servers (G : Globals) : option (list string) :=
  match dns_servers G with
  | Some (ns :: more) => Some (ns :: more)
  | _ => None
  end.

(** What the check makes of a resolver's outcome. *)
Definition verdict (token : string) (out : DnsOutcome) : result bool :=
  match out with
  | DnsAnswer rrset => token_in_answer token rrset
  | DnsRaise e => if is_DNSException e then Ok false else Raise e
  end.

(** The polling phase of a batch, log lines left out, for the record names
    and tokens still to be seen; the flag tells whether every one of them
    was seen propagated.  A poll that misses is followed by the 30 second
    sleep and another poll of the same name; a poll that hits passes to the
    next name; the phase may be cut short (fuel) or abort on an exception. *)
Inductive poll_phase : list (string * string) -> bool -> list Event -> Prop :=
| poll_done : poll_phase [] true []
| poll_cut target rest : poll_phase (target :: rest) false []
| poll_hit name token rest ns out done t :
    verdict token out = Ok true ->
    poll_phase rest done t ->
    poll_phase ((name, token) :: rest) done (EvDns ns name out :: t)
| poll_miss name token rest ns out done t :
    verdict token out = Ok false ->
    poll_phase ((name, token) :: rest) done t ->
    poll_phase ((name, token) :: rest) done (EvDns ns name out :: EvSleep 30 :: t)
| poll_abort name token rest ns out e :
    verdict token out = Raise e ->
    poll_phase ((name, token) :: rest) false [EvDns ns name out].

(** The order of the events of a batch of N triples, log lines left out:
    provider calls only ([t_create]); then, if anything follows, the settle
    sleep of the configured length, reached only when the create calls of
    all N triples have completed, and after it the polling phase over the
    names of the triples in the order of the arguments.  The run completes
    exactly when the polling phase does. *)
Definition batch_ordered (P : Platform) (G : Globals) (args : list string) (N : nat)
    (s : Env P) (r : result unit) (t : list Event) : Prop :=
  exists t_create t_after,
    actions t = t_create ++ t_after /\
    Forall (fun e => is_http e = true) t_create /\
    ((t_after = [] /\ r <> Ok tt) \/
     (exists settle t_poll done s1 tc,
         t_after = EvSleep settle :: t_poll /\
         py_int (default "10" (environ G !! "CF_SETTLE_TIME")) = Some settle /\
         for_each (triples args) (create_txt_record P G) s = (Ok tt, s1, tc) /\
         actions tc = t_create /\
         length (triples args) = N /\
         poll_phase (map poll_target (triples args)) done t_poll /\
         (done = true <-> r = Ok tt))).

(** *** Zone lookup *)

(** The result set a zone-list answer carries. *)
Definition result_set (out : HttpOutcome) : list json :=
  match out with
  | HttpResponse _ (Some (JObj kv)) =>
      match assoc_get "result" kv with
      | Some (JArr l) => l
      | _ => []
      end
  | _ => []
  end.


(** The id of the first entry of a result set. *)
Definition first_id (out : HttpOutcome) : option json :=
  match result_set out with
  | JObj kv :: _ => assoc_get "id" kv
  | _ => None
  end.

Definition zone_query (url : string) (auth : Headers) (out : HttpOutcome) : Event :=
  EvHttp (mkRequest GET url auth None) out.

Definition token_permissions_message (tld : string) : string :=
  ESC +:+ "[91mERROR:" +:+ ESC +:+
  "[0m None of the provided API Tokens have the required permissions for the domain " +:+ tld.

Definition zone_absent_message (tld : string) : string :=
  ESC +:+ "[91mERROR:" +:+ ESC +:+ "[0m Domain " +:+ tld +:+
  " not found in any Cloudflare account".

(** The log line of a failed zone lookup, by the kind of credentials in
    use. *)
Definition zone_failure_message (G : Globals) (tld : string) : string :=
  if bool_decide (is_Some (environ G !! "CF_API_TOKEN"))
  then token_permissions_message tld
  else zone_absent_message tld.

(** The zone queries answered by [asked], one per context. *)
Definition zone_queries (tld : string) (asked : list (Headers * HttpOutcome)) : list Event :=
  map (fun q => zone_query (zones_url tld) (fst q) (snd q)) asked.



(** What the specification says of one propagation check, read against the
    resolver's outcome for the query: one query and no other network call;
    on an answer, the result is whether a record's decoded strings contain
    the token; on a DNS failure, the result is false. *)
Definition propagation_check_as_specified (P : Platform) (G : Globals)
    (name token : string) (s : Env P) : Prop :=
  let '(out, s1) := dns_resolve P (asked_servers G) name s in
  let '(r, s2, t) := _has_dns_propagated P G name token s in
  List.filter is_network t = [EvDns (asked_servers G) name out] /\
  s2 = s1 /\
  match out with
  | DnsAnswer rrset => r = Ok (answer_has_token token rrset)
  | DnsRaise e => is_DNSException e = true -> r = Ok false
  end.

(** *** Record operations *)

Definition acme_name (domain : string) : string := "_acme-challenge." +:+ domain.

Definition fixed_payload (domain token : string) : json :=
  JObj [("type", JStr "TXT"); ("name", JStr (acme_name domain));
        ("content", JStr token); ("ttl", JNum 120)].

(** A request of a record operation on [domain] and [token] is a zone
    query, a lookup of the record of the challenge name and the token, a
    create call with the fixed payload, or a delete call. *)
Definition record_request (domain token : string) (req : Request) : Prop :=
  match req_method req with
  | GET =>
      (exists tld, req_url req = zones_url tld) \/
      (exists zone_id, req_url req = lookup_url zone_id (acme_name domain) token)
  | POST =>
      (exists zone_id, req_url req = records_url zone_id) /\
      req_json req = Some (fixed_payload domain token)
  | DELETE =>
      exists zone_id record_id, req_url req = record_url zone_id record_id
  end.

Definition record_event (domain token : string) (e : Event) : Prop :=
  match e with
  | EvHttp req _ => record_request domain token req
  | EvLog _ _ => True
  | _ => False
  end.

(** Every delete call in [t] is on the id that a lookup of the challenge
    name and the token, made in [t] with the same credentials, has found. *)
Definition deletes_looked_up (P : Platform) (domain token : string) (t : list Event) : Prop :=
  forall req out, In (EvHttp req out) t -> req_method req = DELETE ->
    exists zone_id record_id found,
      In (EvHttp (mkRequest GET (lookup_url zone_id (acme_name domain) token)
                            (req_headers req) None) found) t /\
      first_id found = Some record_id /\
      req_url req = record_url zone_id (py_str P record_id).

(** *** Loops over a batch *)

(** The slices [args[i:i+3]] the loops of the orchestrator go through. *)
Definition groups (args : list string) : list (list string) :=
  map (fun i => slice args i (i + 3)) (py_range (length args) 3).

(** The body of the polling loop, on the group [args[i:i+3]]. *)
Definition poll_group (P : Platform) (G : Globals) (fuel : nat)
    (group : list string) : M P unit :=
  bind (list_item P group 0)
       (fun domain => bind (list_item P group 2)
          (fun token => wait_propagated P G fuel (record_name domain) token)).

(** Every event of every run of [m] satisfies [Q]. *)
Definition emits {P : Platform} {A : Type} (Q : Event -> Prop) (m : M P A) : Prop :=
  forall s r s' t, m s = (r, s', t) -> Forall Q t.

(** *** More vocabulary *)

(** A delete call: a DELETE to the provider. *)
Definition is_delete_call (e : Event) : bool :=
  match e with
  | EvHttp req _ => match req_method req with DELETE => true | _ => false end
  | _ => false
  end.

Definition delete_calls (t : list Event) : nat :=
  length (List.filter is_delete_call t).

(** The operation names of the table of [main]. *)
Definition operation_names : list string :=
  ["deploy_challenge"; "clean_challenge"; "deploy_cert"; "unchanged_cert";
   "invalid_challenge"; "startup_hook"; "exit_hook"].

Definition is_ok {A : Type} (r : result A) : bool :=
  match r with Ok _ => true | _ => false end.

(** Number of DNS queries, and the lengths of the sleeps, in order. *)
Definition dns_queries (t : list Event) : nat := length (List.filter is_dns t).

Definition sleeps (t : list Event) : list Z :=
  omap (fun e => match e with EvSleep secs => Some secs | _ => None end) t.

(** A string of bytes below 0x80. *)
Definition is_ascii_string (b : bytes) : bool :=
  forallb (in_range 0 127) (list_ascii_of_string b).

(** The check for [name] and [token] misses [k] times from the state [s],
    a 30 second sleep after each miss, and then hits. *)
Fixpoint hits_after (P : Platform) (G : Globals) (name token : string)
    (k : nat) (s : Env P) : Prop :=
  match k with
  | O => verdict token (dns_resolve P (asked_servers G) name s).1 = Ok true
  | S k' =>
      verdict token (dns_resolve P (asked_servers G) name s).1 = Ok false /\
      hits_after P G name token k'
        (time_passes P 30 (dns_resolve P (asked_servers G) name s).2)
  end.

(** ** Concrete worlds *)

Module Examples.

Import Cloudflare.

Definition CF : Platform := platform fld_of_host.

Definition token_a : Headers := bearer_headers "tok-a".

(** The environment of the end-to-end scenario: one token, no settle
    time. *)
Definition env_token : gmap string string :=
  <["CF_API_TOKEN" := "tok-a"]> (<["CF_SETTLE_TIME" := "0"]> ∅).

Definition G_token : Globals :=
  {| environ := env_token; debug_level := false;
     CF_HEADERS := [token_a]; dns_servers := None |}.

(** Two tokens, the first of which the provider does not know. *)
Definition env_two_tokens : gmap string string :=
  <["CF_API_TOKEN" := "expired tok-a"]> ∅.

Definition G_two_tokens : Globals :=
  {| environ := env_two_tokens; debug_level := false;
     CF_HEADERS := [bearer_headers "expired"; token_a]; dns_servers := None |}.


(** A token variable that holds white space only, next to an email/key
    pair. *)
Definition env_blank_token : gmap string string :=
  <["CF_API_TOKEN" := "  "]>
    (<["CF_EMAIL" := "me@example.com"]> (<["CF_KEY" := "k1"]> ∅)).

(** An account with two zones and no record; the resolvers see a record 30
    seconds after the start. *)
Definition w_empty : World :=
  mkWorld [(token_a, ["z1"; "z2"])]
          [("example.com", "z1"); ("example.org", "z2")]
          [] 0 0 30.

Definition challenge_name : string := "_acme-challenge.example.com".

(** The challenge record is there and visible. *)
Definition w_seen : World :=
  mkWorld [(token_a, ["z1"; "z2"])]
          [("example.com", "z1"); ("example.org", "z2")]
          [mkTxt (records_url "z1") challenge_name "tok123" "rec0"] 1 0 0.

(** A TXT string that is not UTF-8: the single byte 0xFF. *)
Definition garbled : bytes := String (ascii_of_nat 255) EmptyString.

(** A record with such a string comes before the challenge record. *)
Definition w_garbled : World :=
  mkWorld [(token_a, ["z1"; "z2"])]
          [("example.com", "z1"); ("example.org", "z2")]
          [mkTxt (records_url "z1") challenge_name garbled "rec0";
           mkTxt (records_url "z1") challenge_name "tok123" "rec1"] 2 0 0.

(** The batch of the end-to-end scenario, and the same with a fourth
    argument. *)
Definition batch : list string :=
  ["example.com"; "ignored-payload"; "tok123";
   "example.org"; "ignored-payload"; "tok456"].

Definition ragged_batch : list string :=
  ["example.com"; "ignored-payload"; "tok123"; "example.org"].







(** The challenge record is there, and the resolvers see it in 30
    seconds. *)
Definition w_pending : World :=
  mkWorld [(token_a, ["z1"; "z2"])]
          [("example.com", "z1"); ("example.org", "z2")]
          [mkTxt (records_url "z1") challenge_name "tok123" "rec0"] 1 0 30.

Definition first_triple : list string := ["example.com"; "ignored-payload"; "tok123"].

End Examples.

(** * Properties *)

(** ** The monad *)

Section MonadFacts.

Context {P : Platform}.

Lemma bind_ok {A B} (m : M P A) (f : A -> M P B) s a s1 t1 :
  m s = (Ok a, s1, t1) ->
  bind m f s = (let '(r, s2, t2) := f a s1 in (r, s2, t1 ++ t2)).
Proof. unfold bind. by intros ->. Qed.

Lemma bind_raise {A B} (m : M P A) (f : A -> M P B) s e s1 t1 :
  m s = (Raise e, s1, t1) -> bind m f s = (Raise e, s1, t1).
Proof. unfold bind. by intros ->. Qed.

Lemma bind_ret {A B} (a : A) (f : A -> M P B) s : bind (ret a) f s = f a s.
Proof. unfold bind, ret. by destruct (f a s) as [[r s2] t2]. Qed.

Lemma bind_inv {A B} (m : M P A) (f : A -> M P B) s r s' t :
  bind m f s = (r, s', t) ->
  (exists a s1 t1 t2,
      m s = (Ok a, s1, t1) /\ f a s1 = (r, s', t2) /\ t = t1 ++ t2) \/
  (m s = (match r with
          | Ok _ => OutOfFuel
          | Raise e => Raise e
          | OutOfFuel => OutOfFuel
          end, s', t) /\ forall b, r <> Ok b).
Proof.
  unfold bind. destruct (m s) as [[[a|e|] s1] t1].
  - destruct (f a s1) as [[r2 s2] t2] eqn:E. intros [= <- <- <-].
    left. by exists a, s1, t1, t2.
  - intros [= <- <- <-]. by right.
  - intros [= <- <- <-]. by right.
Qed.

Lemma bind_assoc {A B C} (m : M P A) (f : A -> M P B) (g : B -> M P C) s :
  bind (bind m f) g s = bind m (fun a => bind (f a) g) s.
Proof.
  unfold bind. destruct (m s) as [[[a|e|] s1] t1]; try done.
  destruct (f a s1) as [[[b|e|] s2] t2]; try done.
  destruct (g b s2) as [[r s3] t3]. by rewrite app_assoc.
Qed.

Lemma for_each_app {A} (xs ys : list A) (body : A -> M P unit) s :
  for_each (xs ++ ys) body s = bind (for_each xs body) (fun _ => for_each ys body) s.
Proof.
  revert s. induction xs as [|x xs IH]; intros s; simpl.
  - by rewrite bind_ret.
  - rewrite bind_assoc.
    destruct (body x s) as [[[[]|e|] s1] t1] eqn:E.
    + rewrite !(bind_ok _ _ _ _ _ _ E). by rewrite IH.
    + by rewrite !(bind_raise _ _ _ _ _ _ E).
    + unfold bind. by rewrite E.
Qed.

Lemma for_each_map {A B} (h : A -> B) (xs : list A) (body : B -> M P unit) s :
  for_each (map h xs) body s = for_each xs (fun x => body (h x)) s.
Proof.
  revert s. induction xs as [|x xs IH]; intros s; simpl; [done|].
  unfold bind. destruct (body (h x) s) as [[[[]|e|] s1] t1]; try done.
  by rewrite IH.
Qed.

Lemma for_each_ext {A} (xs : list A) (f g : A -> M P unit) s :
  (forall x s, x ∈ xs -> f x s = g x s) -> for_each xs f s = for_each xs g s.
Proof.
  revert s. induction xs as [|x xs IH]; intros s H; simpl; [done|].
  unfold bind. rewrite H by left.
  destruct (g x s) as [[[[]|e|] s1] t1]; try done.
  rewrite IH; [done|]. intros y s' Hy. apply H. by right.
Qed.

End MonadFacts.

(** ** Splitting at white space *)

Lemma split_from_space ws s :
  all_space ws -> split_from [] (ws +:+ s) = split_from [] s.
Proof.
  unfold all_space. induction ws as [|c ws IH]; simpl; [done|].
  intros [Hc Hws]%andb_prop. rewrite Hc. simpl. auto.
Qed.

Lemma split_from_all_space ws : all_space ws -> split_from [] ws = [].
Proof.
  unfold all_space. induction ws as [|c ws IH]; simpl; [done|].
  intros [Hc Hws]%andb_prop. rewrite Hc. simpl. auto.
Qed.

Lemma split_from_token tok cur s :
  no_space tok ->
  split_from cur (tok +:+ s) = split_from (rev (list_ascii_of_string tok) ++ cur) s.
Proof.
  unfold no_space. revert cur. induction tok as [|c tok IH]; simpl; intros cur; [done|].
  intros [Hc Htok]%andb_prop. apply negb_true_iff in Hc. rewrite Hc.
  rewrite IH by done. by rewrite <- app_assoc.
Qed.

Lemma split_from_blank cur s :
  starts_blank s -> split_from cur s = flush cur (split_from [] s).
Proof.
  destruct s as [|c s]; simpl; [by destruct cur|].
  intros ->. done.
Qed.

Lemma split_fields v toks : fields v toks -> split v = toks.
Proof.
  unfold split. induction 1 as [ws Hws | ws tok rest toks Hws Hne Htok Hrest _ IH].
  - by apply split_from_all_space.
  - rewrite split_from_space, split_from_token, split_from_blank, IH by done.
    rewrite app_nil_r. unfold flush.
    destruct tok as [|c tok]; [done|].
    simpl. destruct (rev (list_ascii_of_string tok) ++ [c]) eqn:E.
    { by destruct (rev (list_ascii_of_string tok)). }
    rewrite <- E. change (rev (list_ascii_of_string tok) ++ [c]) with (rev (list_ascii_of_string (String c tok))).
    by rewrite rev_involutive, string_of_list_ascii_of_string.
Qed.

(** Every string is made of its fields. *)
Lemma span_token (s : string) :
  exists tok rest,
    s = tok +:+ rest /\ no_space tok /\ starts_blank rest /\
    (String.length rest <= String.length s)%nat.
Proof.
  induction s as [|c s (tok & rest & -> & Htok & Hrest & Hlen)].
  - by exists "", "".
  - destruct (is_space c) eqn:Hc.
    + exists "", (String c (tok +:+ rest)). repeat split; try done.
    + exists (String c tok), rest. repeat split; try done.
      * unfold no_space in *. simpl. by rewrite Hc, Htok.
      * simpl. simpl in Hlen. lia.
Qed.

Lemma fields_decompose (s : string) :
  all_space s \/
  exists ws tok rest,
    s = ws +:+ tok +:+ rest /\ all_space ws /\ tok <> "" /\ no_space tok /\
    starts_blank rest /\ (String.length rest < String.length s)%nat.
Proof.
  induction s as [|c s IH].
  - by left.
  - destruct (is_space c) eqn:Hc.
    + destruct IH as [Hall|(ws & tok & rest & -> & Hws & Hne & Htok & Hrest & Hlen)].
      * left. unfold all_space in *. simpl. by rewrite Hc, Hall.
      * right. exists (String c ws), tok, rest. repeat split; try done.
        -- unfold all_space in *. simpl. by rewrite Hc, Hws.
        -- simpl. simpl in Hlen. lia.
    + right. destruct (span_token s) as (tok & rest & -> & Htok & Hrest & Hlen).
      exists "", (String c tok), rest. repeat split; try done.
      * unfold no_space in *. simpl. by rewrite Hc, Htok.
      * simpl. lia.
Qed.

Lemma fields_split (v : string) : fields v (split v).
Proof.
  remember (String.length v) as n eqn:Hn. revert v Hn.
  induction n as [n IH] using lt_wf_ind. intros v ->.
  destruct (fields_decompose v) as [Hall|(ws & tok & rest & -> & Hws & Hne & Htok & Hrest & Hlen)].
  - unfold split. rewrite split_from_all_space by done. by constructor.
  - pose proof (IH _ Hlen rest eq_refl) as Hf.
    pose proof (fields_cons ws tok rest (split rest) Hws Hne Htok Hrest Hf) as Hv.
    by rewrite (split_fields _ _ Hv).
Qed.

(** ** Credentials *)

Lemma load_credentials_token (P : Platform) env v s :
  env !! "CF_API_TOKEN" = Some v ->
  load_credentials P env s = (Ok (map bearer_headers (split v)), s, []).
Proof.
  intros H. unfold load_credentials, try_except, bind, environ_item.
  by rewrite H.
Qed.


(** C6. With neither credential source in the environment, the process
    logs that credentials are missing and exits with status 1, having made
    no network call and without touching the outside world. *)
Theorem no_credentials_exit (P : Platform) (env : gmap string string)
    (fuel : nat) (sys_argv : list string) (s : Env P) :
  env !! "CF_API_TOKEN" = None ->
  (env !! "CF_EMAIL" = None \/ env !! "CF_KEY" = None) ->
  exists t,
    hook P env fuel sys_argv s = (Raise (SystemExit 1), s, t) /\
    exit_status (@Raise unit (SystemExit 1)) = Some 1 /\
    List.filter is_network t = [] /\
    Forall (fun e => is_log e = true) t.
Proof.
  intros Htok Hpair. eexists.
  unfold hook, module_init, load_credentials, try_except, bind, environ_item.
  rewrite Htok. simpl.
  destruct (env !! "CF_EMAIL") as [e|] eqn:He; simpl.
  - destruct Hpair as [|Hk]; [done|]. rewrite Hk. simpl.
    split; [reflexivity|]. repeat split; repeat constructor.
  - split; [reflexivity|]. repeat split; repeat constructor.
Qed.

(** C9. When CF_API_TOKEN is present but holds no token, the process exits
    with status 1 at startup whatever CF_EMAIL and CF_KEY hold: the
    email/key source is not consulted and the empty list is refused. *)
Theorem empty_token_exit (P : Platform) (env : gmap string string)
    (v : string) (fuel : nat) (sys_argv : list string) (s : Env P) :
  env !! "CF_API_TOKEN" = Some v ->
  all_space v ->
  load_credentials P env s = (Ok [], s, []) /\
  hook P env fuel sys_argv s =
    (Raise (SystemExit 1), s,
     [EvLog ERROR " + No valid Cloudflare credentials found in environment!"]) /\
  exit_status (@Raise unit (SystemExit 1)) = Some 1.
Proof.
  intros Hv Hsp.
  pose proof (load_credentials_token P env v s Hv) as Hl.
  unfold split in Hl. rewrite split_from_all_space in Hl by done.
  split; [done|]. split; [|done].
  unfold hook, module_init. rewrite bind_assoc.
  rewrite (bind_ok _ _ _ _ _ _ Hl). reflexivity.
Qed.

(** ** Deleting with an empty domain *)


(** ** Propagation check *)

Lemma decode_strings_valid (strings : list bytes) :
  Forall (fun b => valid_utf8 b = true) strings -> decode_strings strings = Ok strings.
Proof.
  induction 1 as [|b rest Hb _ IH]; simpl; [done|].
  unfold decode_utf8. by rewrite Hb, IH.
Qed.

Lemma decode_strings_inv (strings : list bytes) :
  (decode_strings strings = Ok strings /\
   Forall (fun b => valid_utf8 b = true) strings) \/
  decode_strings strings = Raise UnicodeDecodeError.
Proof.
  induction strings as [|b rest IH]; simpl; [by left|].
  unfold decode_utf8. destruct (valid_utf8 b) eqn:Hb; [|by right].
  destruct IH as [[-> Hrest]| ->]; [left|right]; auto.
Qed.

Lemma token_among_valid (token : string) (strings : list bytes) :
  Forall (fun b => valid_utf8 b = true) strings ->
  existsb (String.eqb token) strings =
  existsb (fun b => bool_decide (decode_utf8 b = Some token)) strings.
Proof.
  induction 1 as [|b rest Hb _ IH]; simpl; [done|].
  rewrite IH. f_equal. unfold decode_utf8. rewrite Hb.
  destruct (String.eqb_spec token b) as [->|Hne].
  - by rewrite bool_decide_eq_true_2.
  - rewrite bool_decide_eq_false_2; [done|]. intros [= ->]. done.
Qed.

Lemma token_in_answer_decodable (token : string) (rrset : list Rdata) :
  all_decodable rrset ->
  token_in_answer token rrset = Ok (answer_has_token token rrset).
Proof.
  induction 1 as [|rdata rest Hrd _ IH]; simpl; [done|].
  rewrite decode_strings_valid by done.
  rewrite <- token_among_valid by done.
  destruct (existsb (String.eqb token) rdata); [done|]. apply IH.
Qed.

(** The check never reports a token that is not there, nor misses one. *)
Lemma token_in_answer_sound (token : string) (rrset : list Rdata) (b : bool) :
  token_in_answer token rrset = Ok b -> b = answer_has_token token rrset.
Proof.
  revert b. induction rrset as [|rdata rest IH]; simpl; intros b.
  - by intros [= <-].
  - destruct (decode_strings_inv rdata) as [[-> Hrd]| ->]; [|done].
    rewrite <- token_among_valid by done.
    destruct (existsb (String.eqb token) rdata); simpl; [by intros [= <-]|].
    apply IH.
Qed.

Lemma token_in_answer_raises (token : string) (rrset : list Rdata) :
  (exists b, token_in_answer token rrset = Ok b) \/
  token_in_answer token rrset = Raise UnicodeDecodeError.
Proof.
  induction rrset as [|rdata rest IH]; simpl; [eauto|].
  destruct (decode_strings_inv rdata) as [[-> Hrd]| ->]; [|by right].
  destruct (existsb (String.eqb token) rdata); eauto.
Qed.

Lemma resolve_asked (P : Platform) (G : Globals) name :
  match dns_servers G with
  | Some (ns :: more) => resolve P (Some (ns :: more)) name
  | _ => resolve P None name
  end = resolve P (asked_servers G) name.
Proof. unfold asked_servers. by destruct (dns_servers G) as [[|ns more]|]. Qed.

(** One run of the check: one query, to the servers of [asked_servers], and
    the verdict on its outcome. *)
Lemma has_dns_propagated_run (P : Platform) (G : Globals) name token s :
  exists logs,
    _has_dns_propagated P G name token s =
      (verdict token (dns_resolve P (asked_servers G) name s).1,
       (dns_resolve P (asked_servers G) name s).2,
       EvDns (asked_servers G) name (dns_resolve P (asked_servers G) name s).1 :: logs) /\
    Forall (fun e => is_log e = true) logs.
Proof.
  unfold _has_dns_propagated. rewrite resolve_asked.
  unfold try_except, bind, resolve.
  destruct (dns_resolve P (asked_servers G) name s) as [[e|rrset] s1]; simpl.
  - destruct (is_DNSException e) eqn:He.
    + eexists. split; [reflexivity|]. repeat constructor.
    + exists []. done.
  - unfold lift.
    destruct (token_in_answer_raises token rrset) as [[b ->]| ->]; simpl.
    + exists []. done.
    + exists []. done.
Qed.

Lemma filter_network_logs (logs : list Event) :
  Forall (fun e => is_log e = true) logs -> List.filter is_network logs = [].
Proof.
  induction 1 as [|e logs He _ IH]; simpl; [done|].
  destruct e; try done; apply IH.
Qed.

(** C2, as amended. A propagation check makes one TXT query, to the
    configured name servers when the list has an entry and to the system's
    otherwise, and no other network call; when every string of the answer
    is valid UTF-8 it returns whether some record's decoded strings contain
    the token, and it returns false on every DNS failure of the resolver. *)
Theorem propagation_check_decodable (P : Platform) (G : Globals)
    (name token : string) (s : Env P) :
  (forall rrset, (dns_resolve P (asked_servers G) name s).1 = DnsAnswer rrset ->
                 all_decodable rrset) ->
  propagation_check_as_specified P G name token s.
Proof.
  intros Hdec. unfold propagation_check_as_specified.
  destruct (has_dns_propagated_run P G name token s) as (logs & Hrun & Hlogs).
  destruct (dns_resolve P (asked_servers G) name s) as [out s1] eqn:Hout.
  rewrite Hrun. simpl in *. rewrite filter_network_logs by done.
  split; [done|]. split; [done|].
  destruct out as [e|rrset]; simpl.
  - by intros ->.
  - apply token_in_answer_decodable. by apply Hdec.
Qed.

Section Zone.
Variable P : Platform.
Variable G : Globals.

(** One turn of the loop of [_get_zone_id], by the provider's answer. *)
Lemma zone_search_step tld url auth rest s :
  zone_search P G tld url (auth :: rest) s =
  let out := (http_send P (mkRequest GET url auth None) s).1 in
  let s1 := (http_send P (mkRequest GET url auth None) s).2 in
  let ev := zone_query url auth out in
  match out with
  | HttpRaise e => (Raise e, s1, [ev])
  | HttpResponse status body =>
      if (400 <=? status) && (status <? 600) then (Raise (HTTPError status), s1, [ev])
      else match body with
      | None => (Raise JSONDecodeError, s1, [ev])
      | Some j =>
          match dict_get j "result" (JArr []) with
          | Ok res =>
              if truthy res then
                match getitem_0 res with
                | Ok first =>
                    match getitem_key first "id" with
                    | Ok id => (Ok (auth, id), s1, [ev])
                    | Raise e => (Raise e, s1, [ev])
                    | OutOfFuel => (OutOfFuel, s1, [ev])
                    end
                | Raise e => (Raise e, s1, [ev])
                | OutOfFuel => (OutOfFuel, s1, [ev])
                end
              else
                let '(r, s2, t) := zone_search P G tld url rest s1 in (r, s2, ev :: t)
          | Raise e => (Raise e, s1, [ev])
          | OutOfFuel => (OutOfFuel, s1, [ev])
          end
      end
  end.
Proof.
  simpl. unfold bind at 1. unfold requests_call, bind at 1, requests.
  destruct (http_send P (mkRequest GET url auth None) s) as [out s1]; simpl.
  destruct out as [e|status body]; simpl; [done|].
  unfold bind at 1, raise_for_status; simpl.
  destruct ((400 <=? status) && (status <? 600)); simpl; [done|].
  unfold bind at 1, response_json; simpl.
  destruct body as [j|]; simpl; [|done].
  unfold bind at 1, lift.
  destruct (dict_get j "result" (JArr [])) as [res|e|]; simpl; try done.
  destruct (truthy res).
  - unfold bind, lift, ret.
    destruct (getitem_0 res) as [first|e|]; simpl; try done.
    destruct (getitem_key first "id") as [id|e|]; simpl; done.
  - by destruct (zone_search P G tld url rest s1) as [[r s2] t].
Qed.

Lemma zone_search_nil tld url s :
  zone_search P G tld url [] s =
    (Raise (SystemExit 1), s, [EvLog ERROR (zone_failure_message G tld)]).
Proof.
  simpl. unfold zone_failure_message, token_permissions_message, zone_absent_message.
  by destruct (bool_decide (is_Some (environ G !! "CF_API_TOKEN"))).
Qed.




End Zone.

(** ** Events a computation can cause *)

Section Emits.

Context {P : Platform}.

Lemma emits_ret {A} Q (a : A) : emits Q (@ret P A a).
Proof. intros s r s' t [= <- <- <-]. constructor. Qed.

Lemma emits_raise {A} Q e : emits Q (@raise P A e).
Proof. intros s r s' t [= <- <- <-]. constructor. Qed.

Lemma emits_lift {A} Q (x : result A) : emits Q (@lift P A x).
Proof. intros s r s' t [= <- <- <-]. constructor. Qed.

Lemma emits_bind {A B} Q (m : M P A) (f : A -> M P B) :
  emits Q m -> (forall a, emits Q (f a)) -> emits Q (bind m f).
Proof.
  intros Hm Hf s r s' t H.
  apply bind_inv in H as [(a & s1 & t1 & t2 & H1 & H2 & ->)|[H1 _]].
  - apply Forall_app. split; [by eapply Hm | by eapply Hf].
  - by eapply Hm.
Qed.

Lemma emits_try_except {A} Q (m : M P A) handles h :
  emits Q m -> (forall e, emits Q (h e)) -> emits Q (try_except m handles h).
Proof.
  intros Hm Hh s r s' t. unfold try_except.
  destruct (m s) as [[[a|e|] s1] t1] eqn:E.
  - intros [= <- <- <-]. by eapply Hm.
  - destruct (handles e).
    + destruct (h e s1) as [[r2 s2] t2] eqn:E2. intros [= <- <- <-].
      apply Forall_app. split; [by eapply Hm | by eapply Hh].
    + intros [= <- <- <-]. by eapply Hm.
  - intros [= <- <- <-]. by eapply Hm.
Qed.

Lemma emits_log Q lvl msg : Q (EvLog lvl msg) -> emits Q (log P lvl msg).
Proof. intros HQ s r s' t [= <- <- <-]. by constructor. Qed.

Lemma emits_requests_call Q req :
  (forall out, Q (EvHttp req out)) -> emits Q (requests_call P req).
Proof.
  intros HQ s r s' t. unfold requests_call, bind, requests.
  destruct (http_send P req s) as [out s1].
  destruct out; intros [= <- <- <-]; repeat constructor; apply HQ.
Qed.

Lemma emits_raise_for_status Q r : emits Q (raise_for_status P r).
Proof.
  unfold raise_for_status.
  destruct ((400 <=? r.1) && (r.1 <? 600)); [apply emits_raise | apply emits_ret].
Qed.

Lemma emits_response_json Q r : emits Q (response_json P r).
Proof.
  unfold response_json. destruct r.2; [apply emits_ret | apply emits_raise].
Qed.

Lemma emits_for_each {A} Q (xs : list A) (body : A -> M P unit) :
  (forall x, emits Q (body x)) -> emits Q (for_each xs body).
Proof.
  intros Hb. induction xs as [|x xs IH]; simpl.
  - apply emits_ret.
  - apply emits_bind; auto.
Qed.

Lemma emits_list_item Q args i : emits Q (list_item P args i).
Proof.
  unfold list_item. destruct (args !! i); [apply emits_ret | apply emits_raise].
Qed.

Lemma emits_bind_ret {A B} Q (a : A) (f : A -> M P B) :
  emits Q (f a) -> emits Q (bind (ret a) f).
Proof. intros H s r s' t. rewrite bind_ret. apply H. Qed.

Lemma emits_weaken {A} (Q Q' : Event -> Prop) (m : M P A) :
  (forall e, Q e -> Q' e) -> emits Q m -> emits Q' m.
Proof. intros HQ Hm s r s' t H. eapply Forall_impl; [by eapply Hm | done]. Qed.

End Emits.

Ltac emits_step :=
  first
    [ apply emits_ret | apply emits_raise | apply emits_lift
    | apply emits_raise_for_status | apply emits_response_json
    | apply emits_list_item
    | apply emits_bind; [|intros ?]
    | apply emits_try_except; [|intros ?] ].

Section ProviderEvents.

Variable P : Platform.
Variable G : Globals.

Lemma emits_zone_search Q tld url auths :
  (forall lvl msg, Q (EvLog lvl msg)) ->
  (forall auth out, Q (zone_query url auth out)) ->
  emits Q (zone_search P G tld url auths).
Proof.
  intros Hlog Hq. induction auths as [|auth rest IH]; simpl.
  - apply emits_bind; [|intros _; apply emits_raise].
    destruct (bool_decide _); by apply emits_log.
  - apply emits_bind; [apply emits_requests_call; intros; apply Hq|intros r].
    repeat emits_step. destruct (truthy _); [repeat emits_step | apply IH].
Qed.

Lemma emits_get_zone_id Q domain :
  (forall lvl msg, Q (EvLog lvl msg)) ->
  (forall tld auth out, Q (zone_query (zones_url tld) auth out)) ->
  emits Q (_get_zone_id P G domain).
Proof.
  intros Hlog Hq. unfold _get_zone_id.
  apply emits_bind; [apply emits_lift|intros tld].
  by apply emits_zone_search.
Qed.

Lemma emits_get_txt_record_id Q auth zone_id name token :
  (forall lvl msg, Q (EvLog lvl msg)) ->
  (forall out, Q (EvHttp (mkRequest GET (lookup_url (py_str P zone_id) name token) auth None) out)) ->
  emits Q (_get_txt_record_id P auth zone_id name token).
Proof.
  intros Hlog Hq. unfold _get_txt_record_id.
  apply emits_bind; [by apply emits_requests_call|intros r].
  repeat emits_step. by apply emits_log.
Qed.

Lemma acme_name_eq domain : record_name domain = acme_name domain.
Proof. reflexivity. Qed.

Hint Resolve emits_log : core.

Lemma create_txt_record_events domain challenge token :
  emits (record_event domain token) (create_txt_record P G [domain; challenge; token]).
Proof.
  unfold create_txt_record.
  apply emits_bind; [by apply emits_log|intros _].
  apply emits_bind; [by apply emits_log|intros _].
  apply emits_bind; [|intros az].
  { apply emits_get_zone_id; [done|]. intros tld auth out. simpl. left. eauto. }
  apply emits_bind; [|intros record_id].
  { apply emits_get_txt_record_id; [done|]. intros out. simpl. right. eauto. }
  destruct (truthy record_id); [by apply emits_log|].
  apply emits_bind; [|intros r].
  { apply emits_requests_call. intros out. simpl. split; eauto. }
  repeat emits_step. by apply emits_log.
Qed.

Lemma delete_txt_record_events domain challenge token more :
  emits (record_event domain token)
        (delete_txt_record P G (domain :: challenge :: token :: more)).
Proof.
  unfold delete_txt_record, list_item. simpl.
  do 2 apply emits_bind_ret.
  destruct (String.eqb domain ""); [by apply emits_log|].
  apply emits_bind; [|intros az].
  { apply emits_get_zone_id; [done|]. intros tld auth out. simpl. left. eauto. }
  apply emits_bind; [|intros record_id].
  { apply emits_get_txt_record_id; [done|]. intros out. simpl. right. eauto. }
  destruct (truthy record_id); [|by apply emits_log].
  apply emits_bind; [|intros r].
  { apply emits_requests_call. intros out.
    unfold record_event, record_request. cbn [req_method req_url]. eauto. }
  apply emits_bind; [apply emits_raise_for_status|intros _]. by apply emits_log.
Qed.

(** A lookup that returns a true value has it from the first entry of the
    provider's answer. *)
Lemma get_txt_record_id_found auth zone_id name token s record_id s' t :
  _get_txt_record_id P auth zone_id name token s = (Ok record_id, s', t) ->
  truthy record_id = true ->
  exists found,
    In (EvHttp (mkRequest GET (lookup_url (py_str P zone_id) name token) auth None) found) t /\
    first_id found = Some record_id.
Proof.
  unfold _get_txt_record_id. intros H Htr.
  apply bind_inv in H as [(r & s1 & t1 & t2 & H1 & H2 & ->)|[_ Hno]]; [|by destruct (Hno record_id)].
  unfold requests_call, bind, requests in H1.
  destruct (http_send P _ s) as [out s0].
  destruct out as [e|status body]; [done|]. injection H1 as <- <- <-.
  exists (HttpResponse status body). split; [by left|].
  apply bind_inv in H2 as [(u & s2 & t3 & t4 & _ & H2 & ->)|[_ Hno]]; [|by destruct (Hno record_id)].
  unfold try_except, bind, response_json, lift in H2. simpl in H2.
  destruct body as [j|]; simpl in H2; [|done].
  unfold first_id, result_set.
  destruct j as [| | | | |kv]; simpl in H2; try done.
  destruct (assoc_get "result" kv) as [res|]; simpl in H2; [|done].
  destruct res as [| | |[|c str]|[|first l]|]; simpl in H2; try done;
    try (injection H2 as <- <- <-; done).
  destruct first as [| | | | |kv']; simpl in H2; try done.
  destruct (assoc_get "id" kv'); simpl in H2; [|done].
  by injection H2 as <- <- <-.
Qed.

Lemma no_delete_in t :
  Forall (fun e => forall req out, e = EvHttp req out -> req_method req <> DELETE) t ->
  forall req out, In (EvHttp req out) t -> req_method req = DELETE -> False.
Proof.
  intros H req out Hin Hm. rewrite Forall_forall in H.
  apply list_elem_of_In in Hin. by eapply H.
Qed.

Lemma delete_txt_record_looked_up domain challenge token more s r s' t :
  delete_txt_record P G (domain :: challenge :: token :: more) s = (r, s', t) ->
  deletes_looked_up P domain token t.
Proof.
  unfold delete_txt_record, list_item. simpl. rewrite !bind_ret.
  destruct (String.eqb domain "").
  { intros [= <- <- <-] req out [H|[]]. discriminate H. }
  intros H.
  assert (forall A (m : M P A) x y z,
             emits (fun e => forall req out, e = EvHttp req out -> req_method req <> DELETE) m ->
             m x = y -> z = y.2 -> forall req out, In (EvHttp req out) z -> req_method req = DELETE -> False)
    as Hnodel.
  { intros A m x [[r0 s0] t0] z Hm Hrun -> req out. eapply no_delete_in. by eapply Hm. }
  assert (emits (fun e => forall req out, e = EvHttp req out -> req_method req <> DELETE)
                (_get_zone_id P G domain)) as Hz.
  { apply emits_get_zone_id; [done|]. by intros tld auth out req o [= <- <-]. }
  assert (forall az, emits (fun e => forall req out, e = EvHttp req out -> req_method req <> DELETE)
                (_get_txt_record_id P az.1 az.2 (record_name domain) token)) as Hl.
  { intros az. apply emits_get_txt_record_id; [done|]. by intros out req o [= <- <-]. }
  apply bind_inv in H as [(az & s1 & t1 & t2 & H1 & H2 & ->)|[H1 _]];
    [|intros req out Hin Hd; exfalso; by eapply (Hnodel _ _ _ _ _ Hz H1)].
  apply bind_inv in H2 as [(rid & s2 & t3 & t4 & H2 & H3 & ->)|[H2 _]].
  2:{ intros req out Hin Hd. exfalso. apply in_app_or in Hin as [Hin|Hin].
      - by eapply (Hnodel _ _ _ _ _ Hz H1).
      - by eapply (Hnodel _ _ _ _ _ (Hl az) H2). }
  destruct (truthy rid) eqn:Htr.
  2:{ injection H3 as <- <- <-. intros req out Hin Hd. exfalso.
      apply in_app_or in Hin as [Hin|Hin]; [by eapply (Hnodel _ _ _ _ _ Hz H1)|].
      apply in_app_or in Hin as [Hin|[Hin|[]]]; [|done].
      by eapply (Hnodel _ _ _ _ _ (Hl az) H2). }
  destruct (get_txt_record_id_found _ _ _ _ _ _ _ _ H2 Htr) as (found & Hin & Hid).
  intros req out Hreq Hd.
  assert (In (EvHttp req out) t4) as Hin4.
  { apply in_app_or in Hreq as [Hreq|Hreq]; [exfalso; by eapply (Hnodel _ _ _ _ _ Hz H1)|].
    apply in_app_or in Hreq as [Hreq|Hreq]; [exfalso|done].
    by eapply (Hnodel _ _ _ _ _ (Hl az) H2). }
  assert (req = mkRequest DELETE (record_url (py_str P az.2) (py_str P rid)) az.1 None) as ->.
  { unfold requests_call, requests, bind in H3.
    destruct (http_send P _ s2) as [o s3].
    destruct o as [e|status body]; simpl in H3.
    - injection H3 as <- <- <-. destruct Hin4 as [[= <- <-]|[]]. done.
    - unfold bind, raise_for_status in H3. simpl in H3.
      destruct ((400 <=? status) && (status <? 600)); simpl in H3;
        injection H3 as <- <- <-; destruct Hin4 as [[= <- <-]|Hin4]; try done.
      by destruct Hin4 as [|[]]. }
  exists (py_str P az.2), rid, found. simpl. split; [|done].
  apply in_or_app. right. apply in_or_app. by left.
Qed.

End ProviderEvents.

(** ** Slicing a batch *)

Lemma range_from_shift count start :
  range_from count (start + 3) 3 = map (fun i => (i + 3)%nat) (range_from count start 3).
Proof.
  revert start. induction count as [|count IH]; intros start; simpl; [done|].
  by rewrite IH.
Qed.

Lemma py_range_plus3 (n : nat) :
  py_range (S (S (S n))) 3 = 0%nat :: map (fun i => (i + 3)%nat) (py_range n 3).
Proof.
  unfold py_range.
  replace (S (S (S n)) + 3 - 1)%nat with (1 * 3 + (n + 3 - 1))%nat by lia.
  rewrite Nat.div_add_l by lia. simpl.
  by rewrite (range_from_shift _ 0).
Qed.

Lemma slice_shift (d c t : string) (rest : list string) (i : nat) :
  slice (d :: c :: t :: rest) (i + 3) (i + 3 + 3) = slice rest i (i + 3).
Proof.
  unfold slice. replace (i + 3 + 3 - (i + 3))%nat with (i + 3 - i)%nat by lia.
  by replace (i + 3)%nat with (S (S (S i))) by lia.
Qed.

Lemma groups_cons3 d c t rest :
  groups (d :: c :: t :: rest) = [d; c; t] :: groups rest.
Proof.
  unfold groups. cbn [length]. rewrite py_range_plus3. cbn [map].
  f_equal. rewrite map_map. apply map_ext. intros i. apply slice_shift.
Qed.

(** Induction three elements at a time. *)
Lemma list_ind3 (Q : list string -> Prop) :
  Q [] -> (forall a, Q [a]) -> (forall a b, Q [a; b]) ->
  (forall d c t rest, Q rest -> Q (d :: c :: t :: rest)) ->
  forall args, Q args.
Proof.
  intros H0 H1 H2 H3. fix IH 1.
  intros [|d [|c [|t rest]]];
    [apply H0 | apply H1 | apply H2 | apply H3, IH].
Qed.

(** The groups are the complete triples, followed by the incomplete last
    group when there is one. *)
Lemma groups_triples (args : list string) :
  groups args =
  triples args ++
  match drop (3 * length (triples args)) args with
  | [] => []
  | partial => [partial]
  end.
Proof.
  induction args as [|a|a b|d c t rest IH] using list_ind3; try done.
  - rewrite groups_cons3. cbn [triples app length]. rewrite IH.
    replace (3 * S (length (triples rest)))%nat
      with (S (S (S (3 * length (triples rest))))) by lia.
    done.
Qed.

Lemma triples_remainder (args : list string) :
  length (drop (3 * length (triples args)) args) = (length args mod 3)%nat /\
  length args = (3 * length (triples args) + length args mod 3)%nat.
Proof.
  induction args as [|a|a b|d c t rest [IH1 IH2]] using list_ind3; try done.
  cbn [triples length].
  replace (3 * S (length (triples rest)))%nat
    with (S (S (S (3 * length (triples rest))))) by lia.
  cbn [drop].
  replace (S (S (S (length rest)))) with (length rest + 1 * 3)%nat by lia.
  rewrite Nat.Div0.mod_add. lia.
Qed.

Lemma groups_whole (args : list string) (N : nat) :
  length args = (3 * N)%nat ->
  groups args = triples args /\ length (triples args) = N.
Proof.
  intros Hlen. destruct (triples_remainder args) as [H1 H2].
  assert (length args mod 3 = 0)%nat as H0.
  { rewrite Hlen, Nat.mul_comm. apply Nat.Div0.mod_mul. }
  rewrite H0 in H1, H2. split; [|lia].
  rewrite groups_triples.
  destruct (drop _ args); [by rewrite app_nil_r | done].
Qed.

Lemma groups_partial (args : list string) :
  (length args mod 3 <> 0)%nat ->
  exists partial,
    groups args = triples args ++ [partial] /\
    ((exists a, partial = [a]) \/ (exists a b, partial = [a; b])).
Proof.
  intros Hlen. destruct (triples_remainder args) as [H1 _].
  rewrite groups_triples.
  pose proof (Nat.mod_upper_bound (length args) 3 ltac:(lia)) as Hub.
  destruct (drop _ args) as [|a [|b [|c l]]]; cbn [length] in H1.
  - lia.
  - exists [a]. eauto.
  - exists [a; b]. eauto.
  - lia.
Qed.

Section Batches.

Variable P : Platform.
Variable G : Globals.

Lemma bind_ext {A B} (m : M P A) (f g : A -> M P B) s :
  (forall a s1, f a s1 = g a s1) -> bind m f s = bind m g s.
Proof.
  intros H. unfold bind. destruct (m s) as [[[a|e|] s1] t1]; try done.
  by rewrite H.
Qed.

Lemma bind_raise_l {A B} e (f : A -> M P B) s : bind (raise e) f s = raise e s.
Proof. reflexivity. Qed.

Lemma then_raise_not_ok {A B} (m : M P A) e (b : B) s s' t :
  bind m (fun _ => raise e) s = (Ok b, s', t) -> False.
Proof.
  unfold bind, raise. by destruct (m s) as [[[a|e'|] s1] t1].
Qed.

Lemma create_loop_groups (args : list string) s :
  for_each (py_range (length args) 3)
    (fun i => create_txt_record P G (slice args i (i + 3))) s =
  for_each (groups args) (create_txt_record P G) s.
Proof. unfold groups. by rewrite for_each_map. Qed.

Lemma delete_loop_groups (args : list string) s :
  for_each (py_range (length args) 3)
    (fun i => delete_txt_record P G (slice args i (i + 3))) s =
  for_each (groups args) (delete_txt_record P G) s.
Proof. unfold groups. by rewrite for_each_map. Qed.

Lemma for_each_then_raise {A} (xs : list A) (last : A) (body : A -> M P unit) e s :
  (forall s1, body last s1 = (Raise e, s1, [])) ->
  for_each (xs ++ [last]) body s = bind (for_each xs body) (fun _ => raise e) s.
Proof.
  intros Hlast. rewrite for_each_app. apply bind_ext. intros _ s1.
  simpl. unfold bind. by rewrite Hlast.
Qed.

(** C10. When the length of the argument list is not a multiple of 3,
    [create_all_txt_records] and [delete_all_txt_records] work through the
    complete leading triples and then fail on the incomplete last group,
    with the [ValueError] of the unpacking and the [IndexError] of
    [args[2]]: neither ever completes, and the events are the events of the
    leading triples alone (no request is made for the last group, no settle
    sleep, no poll). *)
Theorem partial_group_rejected (fuel : nat) (args : list string) (s : Env P) :
  (length args mod 3 <> 0)%nat ->
  create_all_txt_records P G fuel args s =
    bind (settle_time_setting P G)
         (fun _ => bind (for_each (triples args) (create_txt_record P G))
                        (fun _ => raise ValueError)) s /\
  delete_all_txt_records P G args s =
    bind (for_each (triples args) (delete_txt_record P G))
         (fun _ => raise IndexError) s /\
  (create_all_txt_records P G fuel args s).1.1 <> Ok tt /\
  (delete_all_txt_records P G args s).1.1 <> Ok tt.
Proof.
  intros Hlen.
  destruct (groups_partial args Hlen) as (partial & Hgroups & Hpartial).
  assert (create_all_txt_records P G fuel args s =
          bind (settle_time_setting P G)
               (fun _ => bind (for_each (triples args) (create_txt_record P G))
                              (fun _ => raise ValueError)) s) as Hc.
  { unfold create_all_txt_records. apply bind_ext. intros settle s1.
    unfold bind at 1. rewrite create_loop_groups, Hgroups.
    rewrite (for_each_then_raise _ partial _ ValueError).
    - destruct (bind _ _ s1) as [[[[]|e|] s2] t2] eqn:E; try done.
      by apply then_raise_not_ok in E.
    - intros s2. by destruct Hpartial as [[a ->]|(a & b & ->)]. }
  assert (delete_all_txt_records P G args s =
          bind (for_each (triples args) (delete_txt_record P G))
               (fun _ => raise IndexError) s) as Hd.
  { unfold delete_all_txt_records. rewrite delete_loop_groups, Hgroups.
    apply for_each_then_raise.
    intros s2. by destruct Hpartial as [[a ->]|(a & b & ->)]. }
  split; [done|]. split; [done|].
  rewrite Hc, Hd. unfold bind, raise. split.
  - destruct (settle_time_setting P G s) as [[[z|e|] s1] t1]; try done.
    by destruct (for_each _ _ s1) as [[[[]|e|] s2] t2].
  - by destruct (for_each _ _ s) as [[[[]|e|] s2] t2].
Qed.

End Batches.

Section Ordering.

Variable P : Platform.
Variable G : Globals.

Lemma actions_app t1 t2 : actions (t1 ++ t2) = actions t1 ++ actions t2.
Proof. apply List.filter_app. Qed.

Lemma actions_logs logs :
  Forall (fun e => is_log e = true) logs -> actions logs = [].
Proof.
  induction 1 as [|e logs He _ IH]; simpl; [done|].
  by rewrite He.
Qed.

Lemma verdict_not_out_of_fuel token out : verdict token out <> OutOfFuel.
Proof.
  destruct out as [e|rrset]; simpl.
  - by destruct (is_DNSException e).
  - by destruct (token_in_answer_raises token rrset) as [[b ->]| ->].
Qed.

(** The poll loop of one record name. *)
Lemma wait_propagated_phase fuel name token s r s' t :
  wait_propagated P G fuel name token s = (r, s', t) ->
  (r = Ok tt /\
   forall rest done tl,
     poll_phase rest done tl ->
     poll_phase ((name, token) :: rest) done (actions t ++ tl)) \/
  (r <> Ok tt /\
   forall rest, poll_phase ((name, token) :: rest) false (actions t)).
Proof.
  revert s r s' t. induction fuel as [|fuel IH]; intros s r s' t; simpl.
  - intros [= <- <- <-]. right. split; [done|]. intros rest. constructor.
  - destruct (has_dns_propagated_run P G name token s) as (logs & Hrun & Hlogs).
    unfold bind at 1. rewrite Hrun.
    destruct (dns_resolve P (asked_servers G) name s) as [out s1]. cbn [fst snd].
    pose proof (verdict_not_out_of_fuel token out) as Hv.
    destruct (verdict token out) as [[|]|e|] eqn:Hverdict; [| | |done].
    + (* seen *)
      intros [= <- <- <-]. left. split; [done|]. intros rest done tl Hrest.
      rewrite app_nil_r. simpl. rewrite actions_logs by done.
      by eapply poll_hit.
    + (* not yet: sleep and poll again *)
      simpl negb. cbv iota.
      unfold bind at 1 2, log, emit, time_sleep. simpl.
      destruct (wait_propagated P G fuel name token (time_passes P 30 s1))
        as [[r1 s2] t1] eqn:Hwait.
      intros [= <- <- <-].
      change (EvDns (asked_servers G) name out :: logs ++ ?x :: ?y :: t1)
        with ([EvDns (asked_servers G) name out] ++ logs ++ [x; y] ++ t1).
      rewrite !actions_app, (actions_logs logs) by done. simpl.
      destruct (IH _ _ _ _ Hwait) as [[-> Hphase]|[Hne Hphase]].
      * left. split; [done|]. intros rest done tl Hrest.
        eapply poll_miss; [done|]. by apply Hphase.
      * right. split; [done|]. intros rest.
        eapply poll_miss; [done|]. by apply Hphase.
    + (* the check raises *)
      intros [= <- <- <-]. right. split; [done|]. intros rest.
      simpl. rewrite actions_logs by done. by eapply poll_abort.
Qed.


Lemma slice_lookup (args : list string) (i k : nat) :
  (k < 3)%nat -> slice args i (i + 3) !! k = args !! (i + k)%nat.
Proof.
  intros Hk. unfold slice. replace (i + 3 - i)%nat with 3%nat by lia.
  rewrite lookup_take_lt by done. by rewrite lookup_drop.
Qed.

Lemma poll_loop_groups fuel (args : list string) s :
  for_each (py_range (length args) 3)
    (fun i => bind (list_item P args i)
       (fun domain => bind (list_item P args (i + 2))
          (fun token => wait_propagated P G fuel (record_name domain) token))) s =
  for_each (groups args) (poll_group P G fuel) s.
Proof.
  unfold groups. rewrite for_each_map. apply for_each_ext. intros i s1 _.
  unfold poll_group, list_item.
  rewrite !slice_lookup by lia. by rewrite Nat.add_0_r.
Qed.

Lemma triples_shape (args : list string) :
  Forall (fun group => exists d c t, group = [d; c; t]) (triples args).
Proof.
  induction args as [|a|a b|d c t rest IH] using list_ind3; try by constructor.
  simpl. constructor; eauto.
Qed.

Lemma poll_group_triple fuel d c tok s :
  poll_group P G fuel [d; c; tok] s = wait_propagated P G fuel (record_name d) tok s.
Proof. unfold poll_group, list_item. simpl. by rewrite !bind_ret. Qed.

Lemma poll_loop_phase fuel (trs : list (list string)) s r s' t :
  Forall (fun group => exists d c t, group = [d; c; t]) trs ->
  for_each trs (poll_group P G fuel) s = (r, s', t) ->
  exists done,
    poll_phase (map poll_target trs) done (actions t) /\
    (done = true <-> r = Ok tt).
Proof.
  intros Hshape. revert s r s' t.
  induction Hshape as [|group trs (d & c & tok & ->) _ IH]; intros s r s' t; simpl.
  - intros [= <- <- <-]. exists true. split; [constructor|done].
  - intros H.
    apply bind_inv in H as [([] & s1 & t1 & t2 & H1 & H2 & ->)|[H1 Hno]];
      rewrite poll_group_triple in H1.
    + destruct (IH _ _ _ _ H2) as (done & Hphase & Hdone).
      exists done. split; [|done]. rewrite actions_app.
      apply wait_propagated_phase in H1 as [[_ Hp]|[Hne _]]; [by apply Hp|done].
    + exists false. split; [|split; [done|intros ->; by destruct (Hno tt)]].
      assert (wait_propagated P G fuel (record_name d) tok s = (r, s', t)) as H1'.
      { rewrite H1. by destruct r as [[]| |]; [destruct (Hno tt)|..]. }
      apply wait_propagated_phase in H1' as [[-> _]|[_ Hp]]; [by destruct (Hno tt)|].
      apply Hp.
Qed.

Lemma create_txt_record_calls (args : list string) :
  emits (fun e => is_log e = true \/ is_http e = true) (create_txt_record P G args).
Proof.
  destruct args as [|d [|c [|t [|x more]]]]; try apply emits_raise.
  eapply emits_weaken; [|apply create_txt_record_events].
  intros [] H; simpl in *; auto.
Qed.

Lemma actions_calls (t : list Event) :
  Forall (fun e => is_log e = true \/ is_http e = true) t ->
  Forall (fun e => is_http e = true) (actions t).
Proof.
  induction 1 as [|e t He _ IH]; simpl; [constructor|].
  destruct e; simpl in *; try done; try (constructor; done).
  all: destruct He; done.
Qed.

(** C1. For a batch given as a flat list of 3·N arguments, in every run of
    [create_all_txt_records] the events other than log lines are, in this
    order: calls to the provider and nothing else; then, only once the
    create calls for all N triples have completed, the settle sleep of the
    configured length; then the polls, domain by domain in the order of the
    arguments, each miss followed by a 30 second sleep and a poll of the
    same name, the next name polled only after a poll of the current one
    has seen the token.  The run completes exactly when every name was seen
    propagated. *)
Theorem batch_ordering (fuel : nat) (args : list string) (N : nat)
    (s : Env P) (r : result unit) (s' : Env P) (t : list Event) :
  length args = (3 * N)%nat ->
  create_all_txt_records P G fuel args s = (r, s', t) ->
  batch_ordered P G args N s r t.
Proof.
  unfold batch_ordered.
  intros Hlen. destruct (groups_whole args N Hlen) as [Hgroups HN].
  unfold create_all_txt_records, settle_time_setting.
  destruct (py_int _) as [settle|] eqn:Hint.
  2:{ intros [= <- <- <-]. exists [], []. split; [done|]. split; [constructor|].
      left. done. }
  rewrite bind_ret. intros H.
  apply bind_inv in H as [([] & s1 & tc & t2 & Hc & H & ->)|[Hc Hno]].
  2:{ exists (actions t), []. rewrite app_nil_r. split; [done|]. split.
      - apply actions_calls.
        eapply (emits_for_each (P:=P)); [|exact Hc]. intros i. apply create_txt_record_calls.
      - left. split; [done|]. intros ->. by destruct (Hno tt). }
  rewrite create_loop_groups, Hgroups in Hc.
  assert (Forall (fun e => is_http e = true) (actions tc)) as Hcalls.
  { apply actions_calls.
    eapply (emits_for_each (P:=P)); [|exact Hc]. intros i. apply create_txt_record_calls. }
  exists (actions tc).
  unfold bind at 1, log, emit in H. simpl in H.
  unfold bind at 1, time_sleep in H.
  destruct (settle <? 0) eqn:Hneg.
  { injection H as <- <- <-. exists []. rewrite actions_app. simpl.
    split; [done|]. split; [done|]. left. done. }
  destruct (for_each (py_range (length args) 3) _ (time_passes P settle s1))
    as [[r2 s2] t2'] eqn:Hpoll.
  injection H as <- <- <-.
  rewrite poll_loop_groups, Hgroups in Hpoll.
  destruct (poll_loop_phase _ _ _ _ _ _ (triples_shape args) Hpoll)
    as (done & Hphase & Hdone).
  exists (EvSleep settle :: actions t2').
  split.
  { rewrite actions_app. f_equal. }
  split; [done|]. right.
  exists settle, (actions t2'), done, s1, tc. by repeat split; try apply Hdone.
Qed.

End Ordering.

(** ** The provider model *)

Section CloudflareFacts.

Import Cloudflare.

Variable fld : string -> exn + string.
Variable G : Globals.

Abbreviation CF := (platform fld).

Lemma append_assoc (a b c : string) : (a +:+ b) +:+ c = a +:+ b +:+ c.
Proof.
  induction a as [|x a IH]; [done|].
  change (String x ((a +:+ b) +:+ c) = String x (a +:+ b +:+ c)).
  by rewrite IH.
Qed.

Lemma lookup_url_collection zone_id name token :
  lookup_url zone_id name token =
  records_url zone_id +:+ "?type=TXT&name=" +:+ name +:+ "&content=" +:+ token.
Proof.
  unfold lookup_url, records_url. by rewrite !append_assoc.
Qed.

Lemma strip_prefix_app p s : strip_prefix p (p +:+ s) = Some s.
Proof.
  induction p as [|a p IH]; simpl; [done|]. by rewrite Ascii.eqb_refl.
Qed.

Lemma get_unchanged req w : req_method req = GET -> (http req w).2 = w.
Proof.
  intros Hm. unfold http. rewrite Hm.
  destruct (credentials _ w); [|done].
  by destruct (strip_prefix _ _).
Qed.

Lemma zone_query_directory tld auth w w' :
  same_directory w w' ->
  (http (mkRequest GET (zones_url tld) auth None) w).1 =
  (http (mkRequest GET (zones_url tld) auth None) w').1.
Proof.
  intros [Ha Hz]. unfold http, credentials. cbn [req_headers req_method req_url].
  rewrite Ha. destruct (snd <$> _); [|done].
  unfold zones_url. rewrite strip_prefix_app. cbn [fst]. by rewrite Hz.
Qed.

(** A zone lookup reads the accounts and the zones only, and changes
    nothing. *)
Lemma zone_search_directory tld auths w w' :
  same_directory w w' ->
  zone_search CF G tld (zones_url tld) auths w' =
  ((zone_search CF G tld (zones_url tld) auths w).1.1, w',
   (zone_search CF G tld (zones_url tld) auths w).2).
Proof.
  intros Hw. induction auths as [|auth rest IH].
  - by rewrite !zone_search_nil.
  - rewrite !zone_search_step. cbv zeta.
    change (http_send CF) with http. change (Env CF) with World.
    rewrite <- (zone_query_directory tld auth w w' Hw).
    rewrite !get_unchanged by done.
    destruct (http _ w).1 as [e|status [j|]]; try done.
    + destruct ((400 <=? status) && (status <? 600)); [done|].
      destruct (dict_get j "result" (JArr [])) as [res|e|]; try done.
      destruct (truthy res).
      * destruct (getitem_0 res) as [first|e|]; try done.
        by destruct (getitem_key first "id").
      * rewrite IH.
        by destruct (zone_search CF G tld (zones_url tld) rest w) as [[r1 s1] t1].
    + by destruct ((400 <=? status) && (status <? 600)).
Qed.

Lemma get_zone_id_directory domain w w' :
  same_directory w w' ->
  _get_zone_id CF G domain w' =
  ((_get_zone_id CF G domain w).1.1, w', (_get_zone_id CF G domain w).2).
Proof.
  intros Hw. unfold _get_zone_id, bind, lift. simpl.
  destruct (fld _) as [e|tld]; [done|].
  rewrite (zone_search_directory tld _ w w' Hw).
  by destruct (zone_search CF G tld (zones_url tld) (CF_HEADERS G) w) as [[r1 s1] t1].
Qed.


Lemma lookup_not_zone_query zone_id name token :
  strip_prefix "https://api.cloudflare.com/client/v4/zones?name="
               (lookup_url zone_id name token) = None.
Proof. reflexivity. Qed.

(** A lookup in the model: denied without an account, otherwise the id of
    the first record found, or nothing. *)
Lemma lookup_run auth zone_id name token w :
  _get_txt_record_id CF auth zone_id name token w =
  let url := lookup_url (py_str CF zone_id) name token in
  let ev := fun out => EvHttp (mkRequest GET url auth None) out in
  match credentials auth w with
  | None => (Raise (HTTPError 403), w, [ev (failure 403)])
  | Some zs =>
      let out := success (JArr (map (fun r => id_object (rec_id r)) (found zs url w))) in
      match found zs url w with
      | [] => (Ok JNull, w,
               [ev out; EvLog DEBUG (" + Unable to locate record named " +:+ name)])
      | r :: _ => (Ok (JStr (rec_id r)), w, [ev out])
      end
  end.
Proof.
  unfold _get_txt_record_id, requests_call, requests, bind at 1 2.
  change (http_send CF) with http. unfold http at 1.
  cbn [req_headers req_method req_url]. rewrite lookup_not_zone_query.
  destruct (credentials auth w) as [zs|]; [|done].
  cbv zeta. by destruct (found zs _ w) as [|r rs].
Qed.


Lemma create_calls_app t1 t2 : create_calls (t1 ++ t2) = (create_calls t1 + create_calls t2)%nat.
Proof. unfold create_calls. by rewrite List.filter_app, length_app. Qed.

Lemma create_calls_none t :
  Forall (fun e => is_create_call e = false) t -> create_calls t = 0%nat.
Proof.
  unfold create_calls. induction 1 as [|e t He _ IH]; simpl; [done|].
  by rewrite He.
Qed.

Lemma get_zone_id_reads (P : Platform) (G' : Globals) domain s r s' t :
  _get_zone_id P G' domain s = (r, s', t) -> create_calls t = 0%nat.
Proof.
  intros H. apply create_calls_none.
  eapply (emits_get_zone_id P G'); [| |exact H]; done.
Qed.

Lemma get_txt_record_id_reads (P : Platform) auth zone_id name token s r s' t :
  _get_txt_record_id P auth zone_id name token s = (r, s', t) -> create_calls t = 0%nat.
Proof.
  intros H. apply create_calls_none.
  eapply (emits_get_txt_record_id P); [| |exact H]; done.
Qed.

(** The part of C4 that holds for every provider: when the lookup before
    the create finds a record, [create_txt_record] logs that the record
    exists and returns, and no create call is made. *)
Lemma create_short_circuit (P : Platform) (G' : Globals) domain challenge token
    s az s1 ta record_id s2 tb :
  _get_zone_id P G' domain s = (Ok az, s1, ta) ->
  _get_txt_record_id P az.1 az.2 (record_name domain) token s1 = (Ok record_id, s2, tb) ->
  truthy record_id = true ->
  exists t,
    create_txt_record P G' [domain; challenge; token] s = (Ok tt, s2, t) /\
    In (EvLog DEBUG " + TXT record exists, skipping creation.") t /\
    create_calls t = 0%nat.
Proof.
  intros Hz Hl Htr. eexists. split; [|split].
  - unfold create_txt_record.
    unfold bind at 1, log, emit. simpl. unfold bind at 1. simpl.
    rewrite (bind_ok _ _ _ _ _ _ Hz). rewrite (bind_ok _ _ _ _ _ _ Hl).
    rewrite Htr. unfold log, emit. reflexivity.
  - right. right. apply in_or_app. right. apply in_or_app. right. by left.
  - cbn [create_calls List.filter is_create_call length].
    fold (create_calls (ta ++ tb ++ [EvLog DEBUG " + TXT record exists, skipping creation."])).
    rewrite !create_calls_app, (get_zone_id_reads _ _ _ _ _ _ _ Hz),
      (get_txt_record_id_reads _ _ _ _ _ _ _ _ _ Hl). done.
Qed.


Lemma found_unanswered zs zone_id name token w :
  unanswered w name token -> found zs (lookup_url zone_id name token) w = [].
Proof.
  intros Hun. unfold found. specialize (Hun zone_id).
  induction Hun as [|r rs Hr _ IH]; [done|].
  rewrite filter_cons_False; [done|]. rewrite Hr, andb_false_r. done.
Qed.

Lemma found_head_id zs url w r rs :
  ids_present w -> found zs url w = r :: rs -> truthy (JStr (rec_id r)) = true.
Proof.
  intros Hids Hf.
  assert (r ∈ found zs url w) as Hin by (rewrite Hf; left).
  apply list_elem_of_filter in Hin as [_ Hin].
  unfold ids_present in Hids. rewrite Forall_forall in Hids.
  specialize (Hids r Hin). simpl.
  destruct (String.eqb_spec (rec_id r) ""); done.
Qed.

Lemma create_twice domain challenge token w w1 t1 :
  ids_present w ->
  create_txt_record CF G [domain; challenge; token] w = (Ok tt, w1, t1) ->
  exists t2,
    create_txt_record CF G [domain; challenge; token] w1 = (Ok tt, w1, t2) /\
    create_calls t2 = 0%nat /\
    (create_calls t1 <= 1)%nat /\
    (unanswered w (record_name domain) token -> create_calls t1 = 1%nat).
Proof.
  intros Hids H1. pose proof H1 as Hrun. unfold create_txt_record in H1.
  apply bind_inv in H1 as [([] & ? & ? & ? & [= <- <-] & H1 & ->)|[[=] _]].
  apply bind_inv in H1 as [([] & ? & ? & ? & [= <- <-] & H1 & ->)|[[=] _]].
  apply bind_inv in H1 as [(az & s1 & tz & ? & Hz & H1 & ->)|[_ Hno]];
    [|by destruct (Hno tt)].
  pose proof (get_zone_id_directory domain w w (conj eq_refl eq_refl)) as Hzw.
  rewrite Hz in Hzw. cbn [fst snd] in Hzw. injection Hzw as ->.
  apply bind_inv in H1 as [(rid & s2 & tl & tp & Hl & H1 & ->)|[_ Hno]];
    [|by destruct (Hno tt)].
  pose proof Hl as Hl'. rewrite lookup_run in Hl'. cbv zeta in Hl'.
  destruct (credentials az.1 w) as [zs|] eqn:Hcred; [|done].
  destruct (found zs _ w) as [|r0 rs] eqn:Hfound.
  - (* nothing found: the record is created *)
    injection Hl' as <- <- <-. simpl in H1.
    unfold requests_call, requests, bind in H1.
    change (http_send CF) with http in H1. unfold http in H1.
    cbn [req_headers req_method req_url req_json] in H1. rewrite Hcred in H1.
    destruct (may_use zs (records_url (py_str CF az.2))) eqn:Hmay; [|done].
    simpl in H1. injection H1 as <- <-.
    set (new := mkTxt (records_url (py_str CF az.2)) (record_name domain) token
                      ("rec" +:+ pretty (serial w))).
    set (w1 := mkWorld (accounts w) (zones w) (records w ++ [new]) (S (serial w))
                       (clock w) (visible_at w)).
    assert (same_directory w w1) as Hdir by done.
    pose proof (get_zone_id_directory domain w w1 Hdir) as Hz1.
    rewrite Hz in Hz1. cbn [fst snd] in Hz1.
    assert (_get_txt_record_id CF az.1 az.2 (record_name domain) token w1 =
            (Ok (JStr (rec_id new)), w1,
             [EvHttp (mkRequest GET (lookup_url (py_str CF az.2) (record_name domain) token)
                                az.1 None)
                     (success (JArr [id_object (rec_id new)]))])) as Hl1.
    { rewrite lookup_run. cbv zeta.
      assert (credentials az.1 w1 = Some zs) as -> by done.
      assert (found zs (lookup_url (py_str CF az.2) (record_name domain) token) w1 = [new])
        as ->; [|done].
      unfold found in *. cbn [records w1]. rewrite filter_app, Hfound.
      rewrite filter_cons_True; [done|].
      cbn [rec_collection new]. rewrite Hmay. unfold answers.
      cbn [rec_collection rec_name rec_content new].
      rewrite <- lookup_url_collection. by rewrite String.eqb_refl. }
    destruct (create_short_circuit CF G domain challenge token w1 az w1 tz
                (JStr (rec_id new)) w1 _ Hz1 Hl1 eq_refl) as (t2 & Ht2 & _ & Hc2).
    exists t2. split; [exact Ht2|]. split; [exact Hc2|].
    assert (create_calls tz = 0%nat) as Hcz by (by eapply get_zone_id_reads).
    cbn [app]. unfold create_calls in *. cbn [List.filter is_create_call].
    rewrite !List.filter_app, !length_app, Hcz. simpl. lia.
  - (* a record is found: nothing is created, nothing changes *)
    injection Hl' as <- <- <-.
    rewrite (found_head_id _ _ _ _ _ Hids Hfound) in H1.
    injection H1 as <- <-.
    destruct (create_short_circuit CF G domain challenge token w az w tz
                (JStr (rec_id r0)) w _ Hz Hl (found_head_id _ _ _ _ _ Hids Hfound))
      as (t2 & Ht2 & _ & Hc2).
    exists t2. split; [exact Ht2|]. split; [exact Hc2|].
    rewrite Hrun in Ht2. injection Ht2 as <-. cbn [app] in Hc2 |- *.
    split; [lia|]. intros Hun.
    by rewrite found_unanswered in Hfound.
Qed.

End CloudflareFacts.

(** ** Record operations *)

Lemma run_eta {P : Platform} {A : Type} (x : result A * Env P * list Event) :
  x = (x.1.1, x.1.2, x.2).
Proof. by destruct x as [[r s] t]. Qed.

(** C8. Every request of [create_txt_record] and of [delete_txt_record]
    for a domain and a token is a zone query, a lookup of the record named
    [_acme-challenge.] followed by the domain as given, with the token as
    content, a create call whose payload is that name, the token, type TXT
    and a TTL of 120, or a delete call; and every delete call is on the id
    that the lookup of that name has found. *)
Theorem challenge_record_requests (P : Platform) (G : Globals)
    (domain challenge token : string) (more : list string) (s : Env P) :
  Forall (record_event domain token)
         (create_txt_record P G [domain; challenge; token] s).2 /\
  Forall (record_event domain token)
         (delete_txt_record P G (domain :: challenge :: token :: more) s).2 /\
  deletes_looked_up P domain token
         (delete_txt_record P G (domain :: challenge :: token :: more) s).2.
Proof.
  split; [|split].
  - eapply create_txt_record_events. apply run_eta.
  - eapply delete_txt_record_events. apply run_eta.
  - eapply delete_txt_record_looked_up. apply run_eta.
Qed.

(** ** Creating twice *)

(** C4. Whenever the lookup that precedes the create finds a record,
    [create_txt_record] logs that the record exists and returns without a
    create call, whatever the provider.  Against the provider model, a
    second call with the same arguments, made after a first call that
    completed and with nothing else touching the provider, completes
    without a create call and leaves the provider as it is; the two calls
    together make at most one create call, and exactly one when no record
    answered the lookup before the first call. *)
Theorem create_is_idempotent :
  (forall (P : Platform) (G : Globals) (domain challenge token : string)
          (s : Env P) (az : Headers * json) (s1 : Env P) (ta : list Event)
          (record_id : json) (s2 : Env P) (tb : list Event),
      _get_zone_id P G domain s = (Ok az, s1, ta) ->
      _get_txt_record_id P az.1 az.2 (record_name domain) token s1 =
        (Ok record_id, s2, tb) ->
      truthy record_id = true ->
      exists t,
        create_txt_record P G [domain; challenge; token] s = (Ok tt, s2, t) /\
        In (EvLog DEBUG " + TXT record exists, skipping creation.") t /\
        create_calls t = 0%nat) /\
  (forall (fld : string -> exn + string) (G : Globals)
          (domain challenge token : string)
          (w w1 : Cloudflare.World) (t1 : list Event),
      Cloudflare.ids_present w ->
      create_txt_record (Cloudflare.platform fld) G [domain; challenge; token] w =
        (Ok tt, w1, t1) ->
      exists t2,
        create_txt_record (Cloudflare.platform fld) G [domain; challenge; token] w1 =
          (Ok tt, w1, t2) /\
        create_calls t2 = 0%nat /\
        (create_calls (t1 ++ t2) <= 1)%nat /\
        (Cloudflare.unanswered w (record_name domain) token ->
         create_calls (t1 ++ t2) = 1%nat)).
Proof.
  split.
  - intros. by eapply create_short_circuit.
  - intros fld G domain challenge token w w1 t1 Hids H1.
    destruct (create_twice fld G domain challenge token w w1 t1 Hids H1)
      as (t2 & H2 & Hc2 & Hle & Hone).
    exists t2. rewrite create_calls_app, Hc2, Nat.add_0_r. by repeat split.
Qed.

(** ** The properties on concrete worlds *)

Section OnExamples.

Import Cloudflare Examples.

(** The module body gives the globals used below. *)
Example module_init_token :
  module_init CF env_token w_empty = (Ok G_token, w_empty, []).
Proof. vm_compute. reflexivity. Qed.

Example module_init_two_tokens :
  module_init CF env_two_tokens w_empty = (Ok G_two_tokens, w_empty, []).
Proof. vm_compute. reflexivity. Qed.

(** The end-to-end scenario: two create calls, the settle sleep, a poll of
    the first name that misses, the 30 second sleep, a poll of the first
    name that hits, a poll of the second name. *)
Example scenario_actions :
  map (fun e => match e with
                | EvHttp req _ => (req_url req, 0)
                | EvDns _ name _ => (name, 1)
                | EvSleep secs => (EmptyString, secs)
                | _ => (EmptyString, -1)
                end)
      (List.filter (fun e => is_create_call e || negb (is_http e))
                   (actions (create_all_txt_records CF G_token 3 batch w_empty).2)) =
  [(records_url "z1", 0); (records_url "z2", 0); (EmptyString, 0);
   ("_acme-challenge.example.com", 1); (EmptyString, 30);
   ("_acme-challenge.example.com", 1); ("_acme-challenge.example.org", 1)].
Proof. vm_compute. reflexivity. Qed.

(** The end-to-end scenario as an instance of the ordering of a batch. *)
Lemma batch_ordering_witness :
  length batch = (3 * 2)%nat /\
  (create_all_txt_records CF G_token 3 batch w_empty).1.1 = Ok tt /\
  batch_ordered CF G_token batch 2 w_empty
    (create_all_txt_records CF G_token 3 batch w_empty).1.1
    (create_all_txt_records CF G_token 3 batch w_empty).2.
Proof.
  split; [reflexivity|]. split; [vm_compute; reflexivity|].
  apply (batch_ordering CF G_token 3 batch 2 w_empty _
           (create_all_txt_records CF G_token 3 batch w_empty).1.2 _).
  - reflexivity.
  - vm_compute. reflexivity.
Defined.

(** A check that finds the token, as an instance. *)
Lemma propagation_check_witness :
  propagation_check_as_specified CF G_token challenge_name "tok123" w_seen.
Proof.
  apply propagation_check_decodable.
  intros rrset. vm_compute. intros [= <-]. repeat constructor.
Defined.

(** C2, as stated, fails when a TXT string of the answer is not UTF-8: the
    second record of the answer holds the token, and the check raises
    [UnicodeDecodeError] at the first one instead of returning true. *)
Lemma propagation_check_garbled_counterexample :
  (dns_resolve CF (asked_servers G_token) challenge_name w_garbled).1 =
    DnsAnswer [[garbled]; ["tok123"]] /\
  answer_has_token "tok123" [[garbled]; ["tok123"]] = true /\
  (_has_dns_propagated CF G_token challenge_name "tok123" w_garbled).1.1 =
    Raise UnicodeDecodeError /\
  ~ propagation_check_as_specified CF G_token challenge_name "tok123" w_garbled.
Proof.
  split; [vm_compute; reflexivity|]. split; [vm_compute; reflexivity|].
  split; [vm_compute; reflexivity|].
  unfold propagation_check_as_specified. vm_compute.
  intros (_ & _ & H). discriminate H.
Qed.



(** A create on a world that has the record, and two creates in a row on a
    world that has not. *)
Lemma create_is_idempotent_witness :
  (exists t,
      create_txt_record CF G_token ["example.com"; "ignored-payload"; "tok123"] w_seen =
        (Ok tt, w_seen, t) /\
      In (EvLog DEBUG " + TXT record exists, skipping creation.") t /\
      create_calls t = 0%nat) /\
  (exists t2,
      create_txt_record CF G_token ["example.com"; "ignored-payload"; "tok123"]
        (create_txt_record CF G_token ["example.com"; "ignored-payload"; "tok123"] w_empty).1.2 =
        (Ok tt,
         (create_txt_record CF G_token ["example.com"; "ignored-payload"; "tok123"] w_empty).1.2,
         t2) /\
      create_calls t2 = 0%nat /\
      (create_calls
         ((create_txt_record CF G_token ["example.com"; "ignored-payload"; "tok123"] w_empty).2
          ++ t2) <= 1)%nat /\
      (unanswered w_empty (record_name "example.com") "tok123" ->
       create_calls
         ((create_txt_record CF G_token ["example.com"; "ignored-payload"; "tok123"] w_empty).2
          ++ t2) = 1%nat)).
Proof.
  split.
  - apply (proj1 create_is_idempotent CF G_token "example.com" "ignored-payload" "tok123"
             w_seen (token_a, JStr "z1") w_seen
             (_get_zone_id CF G_token "example.com" w_seen).2
             (JStr "rec0") w_seen
             (_get_txt_record_id CF token_a (JStr "z1") (record_name "example.com")
                "tok123" w_seen).2).
    + vm_compute. reflexivity.
    + vm_compute. reflexivity.
    + reflexivity.
  - apply (proj2 create_is_idempotent fld_of_host G_token
             "example.com" "ignored-payload" "tok123" w_empty).
    + constructor.
    + vm_compute. reflexivity.
Defined.


(** An empty environment. *)
Lemma no_credentials_exit_witness :
  exists t,
    hook CF ∅ 3 ("hook.py" :: "deploy_challenge" :: batch) w_empty =
      (Raise (SystemExit 1), w_empty, t) /\
    exit_status (@Raise unit (SystemExit 1)) = Some 1 /\
    List.filter is_network t = [] /\
    Forall (fun e => is_log e = true) t.
Proof.
  apply (no_credentials_exit CF ∅ 3 ("hook.py" :: "deploy_challenge" :: batch) w_empty).
  - reflexivity.
  - left. reflexivity.
Defined.

(** A blank token variable next to an email/key pair. *)
Lemma empty_token_exit_witness :
  hook CF env_blank_token 3 ("hook.py" :: "deploy_challenge" :: batch) w_empty =
    (Raise (SystemExit 1), w_empty,
     [EvLog ERROR " + No valid Cloudflare credentials found in environment!"]).
Proof.
  apply (empty_token_exit CF env_blank_token "  " 3
           ("hook.py" :: "deploy_challenge" :: batch) w_empty).
  - reflexivity.
  - reflexivity.
Defined.

(** A batch of four arguments. *)
Lemma partial_group_rejected_witness :
  (length ragged_batch mod 3 <> 0)%nat /\
  (create_all_txt_records CF G_token 3 ragged_batch w_empty).1.1 = Raise ValueError /\
  (delete_all_txt_records CF G_token ragged_batch w_seen).1.1 = Raise IndexError /\
  (create_all_txt_records CF G_token 3 ragged_batch w_empty).1.1 <> Ok tt /\
  (delete_all_txt_records CF G_token ragged_batch w_seen).1.1 <> Ok tt.
Proof.
  assert (length ragged_batch mod 3 <> 0)%nat as Hlen by (vm_compute; lia).
  split; [exact Hlen|].
  split; [vm_compute; reflexivity|]. split; [vm_compute; reflexivity|].
  split.
  - apply (partial_group_rejected CF G_token 3 ragged_batch w_empty Hlen).
  - apply (partial_group_rejected CF G_token 3 ragged_batch w_seen Hlen).
Defined.

End OnExamples.

(** * Further properties of the script *)

(** ** Start-up *)

(** The fields [split] gives are not empty and hold no white space. *)
Lemma fields_tokens (v : string) (toks : list string) :
  fields v toks -> Forall (fun tok => tok <> "" /\ no_space tok) toks.
Proof. induction 1; constructor; auto. Qed.

Lemma split_tokens (v : string) :
  Forall (fun tok => tok <> "" /\ no_space tok) (split v).
Proof. apply (fields_tokens v), fields_split. Qed.



Lemma module_init_inv (P : Platform) (env : gmap string string)
    (s : Env P) (G : Globals) (s' : Env P) (t : list Event) :
  module_init P env s = (Ok G, s', t) ->
  s' = s /\ t = [] /\ environ G = env /\ CF_HEADERS G <> [] /\
  dns_servers G = split <$> env !! "CF_DNS_SERVERS" /\
  (if bool_decide (is_Some (env !! "CF_API_TOKEN"))
   then Forall (fun h => exists tok,
                    h = bearer_headers tok /\ tok <> "" /\ no_space tok)
               (CF_HEADERS G)
   else Forall (fun h => exists email key,
                    h = email_key_headers email key /\
                    (email <> "" /\ no_space email) /\ (key <> "" /\ no_space key))
               (CF_HEADERS G)).
Proof.
  unfold module_init. intros H.
  apply bind_inv in H as [(hs & s1 & t1 & t2 & Hl & H & ->)|[_ Hno]];
    [|by destruct (Hno G)].
  assert (s1 = s /\ t1 = [] /\
          (if bool_decide (is_Some (env !! "CF_API_TOKEN"))
           then Forall (fun h => exists tok,
                    h = bearer_headers tok /\ tok <> "" /\ no_space tok) hs
           else Forall (fun h => exists email key,
                    h = email_key_headers email key /\
                    (email <> "" /\ no_space email) /\ (key <> "" /\ no_space key)) hs))
    as (-> & -> & Hkind).
  { unfold load_credentials, try_except, bind, environ_item in Hl.
    destruct (env !! "CF_API_TOKEN") as [v|] eqn:Ht; simpl in Hl.
    - injection Hl as <- <- <-. repeat split.
      rewrite bool_decide_eq_true_2 by eauto.
      apply Forall_fmap. eapply Forall_impl; [apply split_tokens|].
      intros tok Htok. simpl. eauto.
    - destruct (env !! "CF_EMAIL") as [e|]; simpl in Hl; [|done].
      destruct (env !! "CF_KEY") as [k|]; simpl in Hl; [|done].
      injection Hl as <- <- <-. repeat split.
      rewrite bool_decide_eq_false_2 by (by intros [? ?]).
      apply Forall_fmap.
      pose proof (split_tokens e) as He. pose proof (split_tokens k) as Hk.
      revert He Hk. generalize (split e) (split k). clear.
      intros es. induction es as [|x xs IH]; intros [|y ys] Hx Hy; simpl;
        try constructor.
      + apply Forall_cons in Hx as [Hx _]. apply Forall_cons in Hy as [Hy _].
        simpl. eauto.
      + apply Forall_cons in Hx as [_ Hx]. apply Forall_cons in Hy as [_ Hy].
        by apply IH. }
  apply bind_inv in H as [([] & s1 & t1 & t3 & Hne & H & ->)|[_ Hno]];
    [|by destruct (Hno G)].
  assert (s1 = s /\ t1 = [] /\ hs <> []) as (-> & -> & Hhs).
  { destruct hs; [done|]. by injection Hne as <- <-. }
  unfold try_except, bind, environ_item, ret in H.
  destruct (env !! "CF_DNS_SERVERS"); simpl in H; injection H as <- <- <-; done.
Qed.

(** What the module body leaves behind when it completes: it has touched
    nothing outside and logged nothing; [CF_HEADERS] is not empty; with
    CF_API_TOKEN set every context is a bearer context, otherwise every
    context is an email/key context; every credential string is a
    non-empty string without white space. *)
Theorem module_init_globals (P : Platform) (env : gmap string string)
    (s : Env P) (G : Globals) (s' : Env P) (t : list Event) :
  module_init P env s = (Ok G, s', t) ->
  s' = s /\ t = [] /\ environ G = env /\ CF_HEADERS G <> [] /\
  (if bool_decide (is_Some (env !! "CF_API_TOKEN"))
   then Forall (fun h => exists tok,
                    h = bearer_headers tok /\ tok <> "" /\ no_space tok)
               (CF_HEADERS G)
   else Forall (fun h => exists email key,
                    h = email_key_headers email key /\
                    (email <> "" /\ no_space email) /\ (key <> "" /\ no_space key))
               (CF_HEADERS G)).
Proof.
  intros H. apply module_init_inv in H as (? & ? & ? & ? & _ & ?). done.
Qed.


(** ** Provider client *)

Section Client.

Variable P : Platform.
Variable G : Globals.

(** Of the answers without an error status, [_get_txt_record_id] takes an
    empty result list for "no such record" and returns [None]; a body
    without a result is not tolerated and raises [KeyError]; a result list
    that starts with a record gives that record's id. *)
Theorem lookup_tolerates_empty_list (auth : Headers) (zone_id : json)
    (name token : string) (s : Env P) (status : Z) (kv : list (string * json))
    (s1 : Env P) :
  let req := mkRequest GET (lookup_url (py_str P zone_id) name token) auth None in
  let ev := EvHttp req (HttpResponse status (Some (JObj kv))) in
  http_send P req s = (HttpResponse status (Some (JObj kv)), s1) ->
  (400 <=? status) && (status <? 600) = false ->
  (assoc_get "result" kv = Some (JArr []) ->
   _get_txt_record_id P auth zone_id name token s =
     (Ok JNull, s1,
      [ev; EvLog DEBUG (" + Unable to locate record named " +:+ name)])) /\
  (assoc_get "result" kv = None ->
   _get_txt_record_id P auth zone_id name token s =
     (Raise (KeyError "result"), s1, [ev])) /\
  (forall kv' more id,
      assoc_get "result" kv = Some (JArr (JObj kv' :: more)) ->
      assoc_get "id" kv' = Some id ->
      _get_txt_record_id P auth zone_id name token s = (Ok id, s1, [ev])).
Proof.
  intros req ev Hsend Hst.
  assert (
    _get_txt_record_id P auth zone_id name token s =
    (let '(r0, s2, t2) :=
       try_except
         (bind (response_json P (status, Some (JObj kv)))
            (fun j => bind (lift (getitem_key j "result"))
               (fun res => bind (lift (getitem_0 res))
                  (fun first => lift (getitem_key first "id")))))
         is_IndexError
         (fun _ => bind (log P DEBUG (" + Unable to locate record named " +:+ name))
                     (fun _ => ret JNull)) s1 in
     (r0, s2, [ev] ++ t2))) as ->.
  { unfold _get_txt_record_id.
    unfold bind at 1. unfold requests_call, bind at 1, requests.
    fold req. rewrite Hsend. simpl.
    unfold bind at 1, raise_for_status. simpl. rewrite Hst. simpl.
    by destruct (try_except _ _ _ s1) as [[r0 s2] t2]. }
  unfold try_except, bind, response_json, lift. simpl.
  repeat split.
  - by intros ->.
  - by intros ->.
  - intros kv' more id -> Hid. simpl. by rewrite Hid.
Qed.


(** When the lookup finds no record, [delete_txt_record] makes no delete
    call, logs that there is nothing to delete and returns normally. *)
Theorem delete_nothing_found (domain challenge token : string) (more : list string)
    (s : Env P) (az : Headers * json) (s1 : Env P) (ta : list Event)
    (record_id : json) (s2 : Env P) (tb : list Event) :
  domain <> "" ->
  _get_zone_id P G domain s = (Ok az, s1, ta) ->
  _get_txt_record_id P az.1 az.2 (record_name domain) token s1 =
    (Ok record_id, s2, tb) ->
  truthy record_id = false ->
  delete_txt_record P G (domain :: challenge :: token :: more) s =
    (Ok tt, s2,
     ta ++ tb ++
     [EvLog DEBUG (" + No TXT " +:+ record_name domain +:+ " with token " +:+ token)]) /\
  delete_calls (ta ++ tb) = 0%nat.
Proof.
  intros Hd Hz Hl Htr. split.
  - unfold delete_txt_record, list_item. simpl. rewrite !bind_ret.
    apply String.eqb_neq in Hd. rewrite Hd.
    rewrite (bind_ok _ _ _ _ _ _ Hz), (bind_ok _ _ _ _ _ _ Hl), Htr.
    reflexivity.
  - unfold delete_calls. rewrite List.filter_app, length_app.
    assert (forall t, Forall (fun e => is_delete_call e = false) t ->
                      length (List.filter is_delete_call t) = 0%nat) as Hnone.
    { induction 1 as [|e t He _ IH]; simpl; [done|]. by rewrite He. }
    rewrite !Hnone; [done| |].
    + eapply (emits_get_txt_record_id P); [| |exact Hl]; done.
    + eapply (emits_get_zone_id P G); [| |exact Hz]; done.
Qed.

(** Events of the two record operations, by a property of the requests
    that are not reads. *)
Lemma emits_create_txt_record (Q : Event -> Prop) (args : list string) :
  (forall lvl msg, Q (EvLog lvl msg)) ->
  (forall req out, req_method req <> DELETE -> Q (EvHttp req out)) ->
  emits Q (create_txt_record P G args).
Proof.
  intros Hlog Hreq.
  destruct args as [|d [|c [|t [|x more]]]]; try apply emits_raise.
  unfold create_txt_record.
  apply emits_bind; [by apply emits_log|intros _].
  apply emits_bind; [by apply emits_log|intros _].
  apply emits_bind; [|intros az].
  { apply emits_get_zone_id; [done|]. intros. by apply Hreq. }
  apply emits_bind; [|intros record_id].
  { apply emits_get_txt_record_id; [done|]. intros. by apply Hreq. }
  destruct (truthy record_id); [by apply emits_log|].
  apply emits_bind; [|intros r].
  { apply emits_requests_call. intros out. by apply Hreq. }
  repeat emits_step. by apply emits_log.
Qed.

Lemma emits_delete_txt_record (Q : Event -> Prop) (args : list string) :
  (forall lvl msg, Q (EvLog lvl msg)) ->
  (forall req out, req_method req <> POST -> Q (EvHttp req out)) ->
  emits Q (delete_txt_record P G args).
Proof.
  intros Hlog Hreq. unfold delete_txt_record.
  apply emits_bind; [apply emits_list_item|intros domain].
  apply emits_bind; [apply emits_list_item|intros token].
  destruct (String.eqb domain ""); [by apply emits_log|].
  apply emits_bind; [|intros az].
  { apply emits_get_zone_id; [done|]. intros. by apply Hreq. }
  apply emits_bind; [|intros record_id].
  { apply emits_get_txt_record_id; [done|]. intros. by apply Hreq. }
  destruct (truthy record_id); [|by apply emits_log].
  apply emits_bind; [|intros r].
  { apply emits_requests_call. intros out. by apply Hreq. }
  apply emits_bind; [apply emits_raise_for_status|intros _]. by apply emits_log.
Qed.

Lemma count_none (f : Event -> bool) (t : list Event) :
  Forall (fun e => f e = false) t -> length (List.filter f t) = 0%nat.
Proof. induction 1 as [|e t He _ IH]; simpl; [done|]. by rewrite He. Qed.

Lemma count_app (f : Event -> bool) (t1 t2 : list Event) :
  length (List.filter f (t1 ++ t2)) =
  (length (List.filter f t1) + length (List.filter f t2))%nat.
Proof. by rewrite List.filter_app, length_app. Qed.

(** A request followed by steps that only log: one request. *)
Lemma request_then_logs {A} (f : Event -> bool) req (K : Z * option json -> M P A)
    s r s' t :
  (forall x, emits (fun e => is_log e = true) (K x)) ->
  (forall lvl msg, f (EvLog lvl msg) = false) ->
  (forall msg, f (EvPrint msg) = false) ->
  bind (requests_call P req) K s = (r, s', t) ->
  (length (List.filter f t) <= 1)%nat.
Proof.
  intros HK Hlog Hprint H.
  assert (forall t', Forall (fun e => is_log e = true) t' ->
                     length (List.filter f t') = 0%nat) as Hnone.
  { intros t' Ht'. apply count_none. eapply Forall_impl; [exact Ht'|].
    intros [] He; simpl in He; try done; auto. }
  apply bind_inv in H as [(x & s1 & t1 & t2 & H1 & H2 & ->)|[H1 _]].
  - rewrite count_app, (Hnone t2) by (by eapply HK).
    unfold requests_call, requests, bind in H1.
    destruct (http_send P req s) as [out s0].
    destruct out; injection H1 as _ <- <-; simpl; destruct (f _); simpl; lia.
  - unfold requests_call, requests, bind in H1.
    destruct (http_send P req s) as [out s0].
    destruct out; injection H1 as _ <- <-; simpl; destruct (f _); simpl; lia.
Qed.

Lemma log_bind_inv {A} lvl msg (K : unit -> M P A) s r s' t :
  bind (log P lvl msg) K s = (r, s', t) ->
  exists t', K tt s = (r, s', t') /\ t = EvLog lvl msg :: t'.
Proof.
  unfold bind, log, emit. destruct (K tt s) as [[r0 s0] t0].
  intros [= <- <- <-]. eauto.
Qed.

(** [create_txt_record] makes at most one create call and never a delete
    call; [delete_txt_record] makes at most one delete call and never a
    create call, whatever the arguments and the provider's answers. *)
Theorem record_operations_calls (args : list string) (s : Env P) :
  (create_calls (create_txt_record P G args s).2 <= 1)%nat /\
  delete_calls (create_txt_record P G args s).2 = 0%nat /\
  (delete_calls (delete_txt_record P G args s).2 <= 1)%nat /\
  create_calls (delete_txt_record P G args s).2 = 0%nat.
Proof.
  assert (forall (m : M P unit) (Q : Event -> Prop), emits Q m -> Forall Q (m s).2) as Hem.
  { intros m Q Hm. eapply Hm. apply run_eta. }
  split; [|split; [|split]].
  - destruct args as [|d [|c [|t [|x more]]]]; try (unfold create_calls; simpl; lia).
    destruct (create_txt_record P G [d; c; t] s) as [[r s'] ev] eqn:H. simpl.
    unfold create_txt_record in H.
    apply log_bind_inv in H as (? & H & ->).
    apply log_bind_inv in H as (? & H & ->).
    unfold create_calls. cbn [List.filter is_create_call].
    apply bind_inv in H as [(az & s1 & tz & ? & Hz & H & ->)|[Hz _]].
    2:{ erewrite count_none; [lia|].
        eapply (emits_get_zone_id P G); [| |exact Hz]; done. }
    rewrite count_app. erewrite (count_none _ tz);
      [|eapply (emits_get_zone_id P G); [| |exact Hz]; done].
    apply bind_inv in H as [(rid & s2 & tl & ? & Hl & H & ->)|[Hl _]].
    2:{ erewrite count_none; [lia|].
        eapply (emits_get_txt_record_id P); [| |exact Hl]; done. }
    rewrite count_app. erewrite (count_none _ tl);
      [|eapply (emits_get_txt_record_id P); [| |exact Hl]; done].
    destruct (truthy rid).
    + injection H as <- <- <-. simpl. lia.
    + simpl. eapply request_then_logs; [| | |exact H]; try done.
      intros rr. repeat emits_step. by apply emits_log.
  - apply count_none. apply Hem. apply emits_create_txt_record; [done|].
    intros req out Hm. simpl. by destruct (req_method req).
  - destruct (delete_txt_record P G args s) as [[r s'] ev] eqn:H. simpl.
    unfold delete_txt_record in H. unfold delete_calls.
    apply bind_inv in H as [(domain & sd & td & ? & Hd & H & ->)|[Hd _]].
    2:{ unfold list_item in Hd. destruct (args !! 0%nat); injection Hd as _ <- <-;
          simpl; lia. }
    apply bind_inv in H as [(token & st & tk & ? & Ht & H & ->)|[Ht _]].
    2:{ unfold list_item in Hd, Ht.
        destruct (args !! 0%nat); injection Hd as _ <- <-;
        destruct (args !! 2%nat); injection Ht as _ <- <-; simpl; lia. }
    assert (td = [] /\ tk = []) as [-> ->].
    { unfold list_item in Hd, Ht.
      destruct (args !! 0%nat); injection Hd as _ <- <-;
      destruct (args !! 2%nat); by injection Ht as _ <- <-. }
    simpl. destruct (String.eqb domain "").
    { injection H as <- <- <-. simpl. lia. }
    apply bind_inv in H as [(az & s1 & tz & ? & Hz & H & ->)|[Hz _]].
    2:{ erewrite count_none; [lia|].
        eapply (emits_get_zone_id P G); [| |exact Hz]; done. }
    rewrite count_app. erewrite (count_none _ tz);
      [|eapply (emits_get_zone_id P G); [| |exact Hz]; done].
    apply bind_inv in H as [(rid & s2 & tl & ? & Hl & H & ->)|[Hl _]].
    2:{ erewrite count_none; [lia|].
        eapply (emits_get_txt_record_id P); [| |exact Hl]; done. }
    rewrite count_app. erewrite (count_none _ tl);
      [|eapply (emits_get_txt_record_id P); [| |exact Hl]; done].
    destruct (truthy rid).
    + simpl. eapply request_then_logs; [| | |exact H]; try done.
      intros rr. apply emits_bind; [apply emits_raise_for_status|intros _].
      by apply emits_log.
    + injection H as <- <- <-. simpl. lia.
  - apply count_none. apply Hem. apply emits_delete_txt_record; [done|].
    intros req out Hm. simpl. by destruct (req_method req).
Qed.

End Client.

Section ZoneOrder.

Variable P : Platform.
Variable G : Globals.

Lemma zone_search_asked tld url auths s :
  exists asked,
    fst <$> asked `prefix_of` auths /\
    actions (zone_search P G tld url auths s).2 =
      map (fun q => zone_query url q.1 q.2) asked.
Proof.
  revert s. induction auths as [|auth rest IH]; intros s.
  - exists []. split; [done|]. rewrite zone_search_nil. done.
  - rewrite zone_search_step. cbv zeta.
    destruct (http_send P (mkRequest GET url auth None) s) as [out s1]. cbn [fst snd].
    assert (exists asked,
               fst <$> asked `prefix_of` auth :: rest /\
               actions [zone_query url auth out] =
                 map (fun q => zone_query url q.1 q.2) asked) as Hone.
    { exists [(auth, out)]. split; [|done]. apply prefix_cons, prefix_nil. }
    destruct out as [e|status [j|]]; try exact Hone.
    + destruct ((400 <=? status) && (status <? 600)); [exact Hone|].
      destruct (dict_get j "result" (JArr [])) as [res|e|]; try exact Hone.
      destruct (truthy res).
      * destruct (getitem_0 res) as [first|e|]; try exact Hone.
        destruct (getitem_key first "id"); exact Hone.
      * destruct (IH s1) as (asked & Hpre & Hq).
        destruct (zone_search P G tld url rest s1) as [[r2 s2] t2].
        exists ((auth, HttpResponse status (Some j)) :: asked).
        split; [by apply prefix_cons|]. simpl in *. by rewrite Hq.
    + destruct ((400 <=? status) && (status <? 600)); exact Hone.
Qed.

(** Whatever the provider answers, [_get_zone_id] asks the contexts of
    [CF_HEADERS] in their order, each at most once, all at the zone-list URL
    of the registrable domain, and makes no other request; when the domain
    has no registrable domain it raises before any request. *)
Theorem zone_queries_in_order (domain : string) (s : Env P) :
  match get_fld P ("http://" +:+ domain) with
  | inr tld =>
      exists asked,
        fst <$> asked `prefix_of` CF_HEADERS G /\
        actions (_get_zone_id P G domain s).2 = zone_queries tld asked
  | inl e => _get_zone_id P G domain s = (Raise e, s, [])
  end.
Proof.
  unfold _get_zone_id. destruct (get_fld P _) as [e|tld]; [done|].
  unfold bind at 1, lift. simpl.
  destruct (zone_search_asked tld (zones_url tld) (CF_HEADERS G) s) as (asked & Hpre & Hq).
  destruct (zone_search P G tld (zones_url tld) (CF_HEADERS G) s) as [[r1 s1] t1].
  exists asked. split; [done|]. exact Hq.
Qed.

End ZoneOrder.

(** ** Dispatch and notification handlers *)

Section Dispatch.

Variable P : Platform.
Variable G : Globals.

Lemma ops_unknown fuel op : op ∉ operation_names -> ops P G fuel op = None.
Proof.
  intros Hop. unfold ops.
  repeat match goal with
         | |- context [String.eqb op ?name] =>
             destruct (String.eqb op name) eqn:E;
             [apply String.eqb_eq in E; subst op; exfalso; apply Hop;
              unfold operation_names; set_solver|clear E]
         end.
  done.
Qed.

(** An operation name that is not in the table is ignored: [main] returns
    normally without a log line or any other event.  Called without an
    operation name, [main] raises [IndexError]. *)
Theorem main_unknown_operation (fuel : nat) (op : string) (args : list string)
    (s : Env P) :
  op ∉ operation_names ->
  main P G fuel (op :: args) s = (Ok tt, s, []) /\
  main P G fuel [] s = (Raise IndexError, s, []).
Proof.
  intros Hop. split; [|done].
  unfold main, list_item. simpl. rewrite bind_ret. by rewrite ops_unknown.
Qed.

(** The five notification handlers make no request and no DNS query and
    leave the outside world as it is.  [deploy_cert] returns normally
    exactly when it gets six arguments, [invalid_challenge] exactly when it
    gets at least one; the other three always return normally. *)
Theorem notification_handlers (args : list string) (s : Env P) :
  (forall handler,
      handler ∈ [deploy_cert P; unchanged_cert P; invalid_challenge P;
                 startup_hook P G; exit_hook P] ->
      (handler args s).1.2 = s /\ Forall (fun e => is_log e = true) (handler args s).2) /\
  (is_ok (deploy_cert P args s).1.1 = bool_decide (length args = 6%nat)) /\
  (is_ok (invalid_challenge P args s).1.1 = bool_decide (args <> [])) /\
  (unchanged_cert P args s).1.1 = Ok tt /\
  (startup_hook P G args s).1.1 = Ok tt /\
  (exit_hook P args s).1.1 = Ok tt.
Proof.
  split; [|split; [|split; [|split; [|split]]]].
  - intros handler Hh.
    repeat (apply elem_of_cons in Hh as [->|Hh]); [| | | | |by apply elem_of_nil in Hh].
    + unfold deploy_cert.
      destruct args as [|a1 [|a2 [|a3 [|a4 [|a5 [|a6 [|a7 more]]]]]]]; simpl;
        repeat constructor.
    + simpl. repeat constructor.
    + unfold invalid_challenge, list_item.
      destruct args as [|a1 more]; simpl; repeat constructor.
    + unfold startup_hook.
      destruct (_ && _); [simpl; repeat constructor|].
      destruct (_ || _); simpl; repeat constructor.
    + simpl. repeat constructor.
  - unfold deploy_cert.
    by destruct args as [|a1 [|a2 [|a3 [|a4 [|a5 [|a6 [|a7 more]]]]]]].
  - unfold invalid_challenge, list_item. by destruct args.
  - done.
  - unfold startup_hook. destruct (_ && _); [done|]. by destruct (_ || _).
  - done.
Qed.

End Dispatch.

(** ** Orchestrator *)

Section Orchestrator.

Variable P : Platform.
Variable G : Globals.



Lemma for_each_abort {A} (before after : list A) (x : A) (body : A -> M P unit)
    s s1 t1 e s2 t2 :
  for_each before body s = (Ok tt, s1, t1) ->
  body x s1 = (Raise e, s2, t2) ->
  for_each (before ++ x :: after) body s = (Raise e, s2, t1 ++ t2).
Proof.
  intros Hb Hx. rewrite for_each_app, (bind_ok _ _ _ _ _ _ Hb).
  simpl. unfold bind. by rewrite Hx.
Qed.

(** The first operation that raises ends the batch: when the records of the
    groups [before] are created and the create of the next group raises,
    [create_all_txt_records] raises the same exception; the groups after it
    are not touched, nothing is undone, and there is no settle sleep and no
    poll.  [delete_all_txt_records] stops at the first delete that raises
    in the same way. *)
Theorem batch_aborts_on_first_error (fuel : nat) (args : list string)
    (before after : list (list string)) (group : list string)
    (s s1 s2 : Env P) (t1 t2 : list Event) (e : exn) :
  groups args = before ++ group :: after ->
  (forall n,
      py_int (default "10" (environ G !! "CF_SETTLE_TIME")) = Some n ->
      for_each before (create_txt_record P G) s = (Ok tt, s1, t1) ->
      create_txt_record P G group s1 = (Raise e, s2, t2) ->
      create_all_txt_records P G fuel args s = (Raise e, s2, t1 ++ t2)) /\
  (for_each before (delete_txt_record P G) s = (Ok tt, s1, t1) ->
   delete_txt_record P G group s1 = (Raise e, s2, t2) ->
   delete_all_txt_records P G args s = (Raise e, s2, t1 ++ t2)).
Proof.
  intros Hg. split.
  - intros n Hint Hb Hx.
    unfold create_all_txt_records, settle_time_setting. rewrite Hint, bind_ret.
    apply bind_raise. rewrite create_loop_groups, Hg.
    by eapply for_each_abort.
  - intros Hb Hx. unfold delete_all_txt_records.
    rewrite delete_loop_groups, Hg. by eapply for_each_abort.
Qed.

(** The poll loop has no bound of its own: as long as the check keeps
    answering false it goes on, one query and one 30 second sleep per
    round.  [steady] is any property of the outside world that makes the
    check answer false and that a query followed by the sleep keeps. *)
Theorem poll_never_gives_up (name token : string) (steady : Env P -> Prop) :
  (forall s, steady s ->
     verdict token (dns_resolve P (asked_servers G) name s).1 = Ok false /\
     steady (time_passes P 30 (dns_resolve P (asked_servers G) name s).2)) ->
  forall fuel s, steady s ->
    exists s' t,
      wait_propagated P G fuel name token s = (OutOfFuel, s', t) /\
      steady s' /\
      dns_queries t = fuel /\
      sleeps t = replicate fuel 30.
Proof.
  intros Hsteady fuel. induction fuel as [|fuel IH]; intros s Hs.
  - exists s, []. by repeat split.
  - destruct (has_dns_propagated_run P G name token s) as (logs & Hrun & Hlogs).
    destruct (Hsteady s Hs) as [Hv Hs1].
    destruct (IH _ Hs1) as (s' & t & Hwait & Hs' & Hq & Hsl).
    rewrite Hv in Hrun.
    cbn [wait_propagated]. rewrite (bind_ok _ _ _ _ _ _ Hrun).
    cbn [negb]. unfold bind, log, emit, time_sleep. cbn -[wait_propagated].
    rewrite Hwait.
    eexists _, _. split; [reflexivity|]. split; [done|].
    assert (dns_queries logs = 0%nat /\ sleeps logs = []) as [Hql Hsll].
    { clear -Hlogs. unfold dns_queries.
      induction Hlogs as [|e l He _ [IH1 IH2]]; [done|].
      destruct e; simpl in *; done. }
    split.
    + unfold dns_queries in *. cbn [List.filter is_dns].
      rewrite List.filter_app. cbn [List.filter is_dns length].
      rewrite length_app, Hql, Hq. done.
    + change (sleeps ([EvDns (asked_servers G) name
                         (dns_resolve P (asked_servers G) name s).1] ++ logs ++
                      [EvLog INFO " + DNS not propagated, waiting 30s..."; EvSleep 30] ++ t) =
              30 :: replicate fuel 30).
      unfold sleeps in *. rewrite !omap_app, Hsll, Hsl. done.
Qed.

End Orchestrator.

(** ** Creating, then deleting *)

Section CreateDelete.

Import Cloudflare.

Variable fld : string -> exn + string.
Variable G : Globals.

Abbreviation CF := (platform fld).

Lemma record_url_collection zone_id record_id :
  record_url zone_id record_id = records_url zone_id +:+ "/" +:+ record_id.
Proof. unfold record_url, records_url. by rewrite !append_assoc. Qed.

(** A create that finds nothing to reuse, in the model: the zone lookup
    gives [az], the account may use the zone, and the world gains one
    record. *)
Lemma create_run_new domain challenge token w w1 t1 :
  unanswered w (record_name domain) token ->
  create_txt_record CF G [domain; challenge; token] w = (Ok tt, w1, t1) ->
  exists az tz zs,
    _get_zone_id CF G domain w = (Ok az, w, tz) /\
    credentials az.1 w = Some zs /\
    may_use zs (records_url (py_str CF az.2)) = true /\
    w1 = mkWorld (accounts w) (zones w)
           (records w ++ [mkTxt (records_url (py_str CF az.2)) (record_name domain) token
                                ("rec" +:+ pretty (serial w))])
           (S (serial w)) (clock w) (visible_at w).
Proof.
  intros Hun H1. unfold create_txt_record in H1.
  apply bind_inv in H1 as [([] & ? & ? & ? & [= <- <-] & H1 & ->)|[[=] _]].
  apply bind_inv in H1 as [([] & ? & ? & ? & [= <- <-] & H1 & ->)|[[=] _]].
  apply bind_inv in H1 as [(az & s1 & tz & ? & Hz & H1 & ->)|[_ Hno]];
    [|by destruct (Hno tt)].
  pose proof (get_zone_id_directory fld G domain w w (conj eq_refl eq_refl)) as Hzw.
  rewrite Hz in Hzw. cbn [fst snd] in Hzw. injection Hzw as ->.
  apply bind_inv in H1 as [(rid & s2 & tl & tp & Hl & H1 & ->)|[_ Hno]];
    [|by destruct (Hno tt)].
  rewrite lookup_run in Hl. cbv zeta in Hl.
  destruct (credentials az.1 w) as [zs|] eqn:Hcred; [|done].
  rewrite (found_unanswered _ _ _ _ _ Hun) in Hl.
  injection Hl as <- <- <-. simpl in H1.
  unfold requests_call, requests, bind in H1.
  change (http_send CF) with http in H1. unfold http in H1.
  cbn [req_headers req_method req_url req_json] in H1. rewrite Hcred in H1.
  destruct (may_use zs (records_url (py_str CF az.2))) eqn:Hmay; [|done].
  simpl in H1. injection H1 as <- <-.
  by exists az, tz, zs.
Qed.


Lemma delete_spares zs url (rs : list TxtRecord) :
  Forall (fun r => is_record_url url r = false) rs ->
  filter (fun r => (may_use zs (rec_collection r) && is_record_url url r) = true) rs = [] /\
  filter (fun r => (may_use zs (rec_collection r) && is_record_url url r) = false) rs = rs.
Proof.
  induction 1 as [|r rs Hr _ [IH1 IH2]]; [done|]. split.
  - rewrite filter_cons_False; [exact IH1|]. rewrite Hr, andb_false_r. done.
  - rewrite filter_cons_True by (by rewrite Hr, andb_false_r). by rewrite IH2.
Qed.

(** In the provider model, deleting right after creating takes the record
    away again: when no record answered the lookup before the create and
    the id the provider gives next is not in use, [delete_txt_record] with
    the same arguments, run after a [create_txt_record] that completed,
    makes exactly one delete call, completes, and leaves the records the
    provider had before the create. *)
Theorem create_then_delete (domain challenge token : string)
    (w w1 : World) (t1 : list Event) :
  domain <> "" ->
  unanswered w (record_name domain) token ->
  next_id_free w ->
  create_txt_record CF G [domain; challenge; token] w = (Ok tt, w1, t1) ->
  exists w2 t2,
    delete_txt_record CF G [domain; challenge; token] w1 = (Ok tt, w2, t2) /\
    records w2 = records w /\
    delete_calls t2 = 1%nat.
Proof.
  intros Hd Hun Hfree H1.
  destruct (create_run_new _ _ _ _ _ _ Hun H1) as (az & tz & zs & Hz & Hcred & Hmay & ->).
  set (new := mkTxt (records_url (py_str CF az.2)) (record_name domain) token
                    ("rec" +:+ pretty (serial w))).
  set (w1 := mkWorld (accounts w) (zones w) (records w ++ [new]) (S (serial w))
                     (clock w) (visible_at w)).
  assert (same_directory w w1) as Hdir by done.
  pose proof (get_zone_id_directory fld G domain w w1 Hdir) as Hz1.
  rewrite Hz in Hz1. cbn [fst snd] in Hz1.
  assert (_get_txt_record_id CF az.1 az.2 (record_name domain) token w1 =
          (Ok (JStr (rec_id new)), w1,
           [EvHttp (mkRequest GET (lookup_url (py_str CF az.2) (record_name domain) token)
                              az.1 None)
                   (success (JArr [id_object (rec_id new)]))])) as Hl1.
  { rewrite lookup_run. cbv zeta.
    assert (credentials az.1 w1 = Some zs) as -> by done.
    assert (found zs (lookup_url (py_str CF az.2) (record_name domain) token) w1 = [new])
      as ->; [|done].
    unfold found. cbn [records w1]. rewrite filter_app.
    fold (found zs (lookup_url (py_str CF az.2) (record_name domain) token) w).
    rewrite (found_unanswered _ _ _ _ _ Hun).
    rewrite filter_cons_True; [done|].
    cbn [rec_collection new]. rewrite Hmay. unfold answers.
    cbn [rec_collection rec_name rec_content new].
    rewrite <- lookup_url_collection. by rewrite String.eqb_refl. }
  (* the delete call removes the new record and no other *)
  set (url := record_url (py_str CF az.2) (rec_id new)).
  assert (filter (fun r => (may_use zs (rec_collection r) && is_record_url url r) = true)
                 (records w1) = [new] /\
          filter (fun r => (may_use zs (rec_collection r) && is_record_url url r) = false)
                 (records w1) = records w) as [Hdoomed Hkept].
  { cbn [records w1]. rewrite !filter_app.
    assert (is_record_url url new = true) as Hnew.
    { unfold is_record_url, url. cbn [rec_collection rec_id new].
      rewrite <- record_url_collection. apply String.eqb_refl. }
    assert (Forall (fun r => is_record_url url r = false) (records w)) as Hold.
    { apply Hfree. }
    destruct (delete_spares zs url (records w) Hold) as [-> ->].
    split.
    - rewrite filter_cons_True by (cbn [rec_collection new]; by rewrite Hmay, Hnew).
      done.
    - rewrite filter_cons_False by (cbn [rec_collection new]; by rewrite Hmay, Hnew).
      by rewrite filter_nil, app_nil_r. }
  eexists _, _. split; [|split].
  - unfold delete_txt_record, list_item. simpl. rewrite !bind_ret.
    apply String.eqb_neq in Hd. rewrite Hd.
    rewrite (bind_ok _ _ _ _ _ _ Hz1), (bind_ok _ _ _ _ _ _ Hl1).
    assert (truthy (JStr (rec_id new)) = true) as -> by reflexivity.
    unfold requests_call, requests, bind.
    change (http_send CF) with http. unfold http.
    cbn [req_headers req_method req_url req_json py_str].
    assert (credentials az.1 w1 = Some zs) as -> by done.
    fold url in Hdoomed, Hkept |- *.
    change (rec_id new) with ("rec" +:+ pretty (serial w)) in url.
    fold url. rewrite Hdoomed, Hkept. simpl. reflexivity.
  - done.
  - unfold delete_calls. rewrite count_app. simpl.
    erewrite count_none; [done|].
    eapply (emits_get_zone_id CF G); [| |exact Hz]; done.
Qed.

End CreateDelete.

(** ** Strings of the answer, URLs *)

Lemma ascii_valid_utf8 (b : bytes) : is_ascii_string b = true -> valid_utf8 b = true.
Proof.
  unfold is_ascii_string. induction b as [|c b IH]; [done|].
  cbn [list_ascii_of_string forallb]. intros [Hc Hb]%andb_prop.
  cbn [valid_utf8]. rewrite Hc. auto.
Qed.

(** When every TXT string of an answer is 7-bit ASCII the scan of the
    answer never raises, and it is true exactly when some string of some
    record equals the token, whole and case-sensitive. *)
Theorem ascii_answer_scan (token : string) (rrset : list Rdata) :
  Forall (Forall (fun b => is_ascii_string b = true)) rrset ->
  token_in_answer token rrset =
    Ok (existsb (fun rdata => existsb (String.eqb token) rdata) rrset).
Proof.
  intros Hascii.
  assert (all_decodable rrset) as Hdec.
  { eapply Forall_impl; [exact Hascii|]. intros rdata Hrd.
    eapply Forall_impl; [exact Hrd|]. intros b. apply ascii_valid_utf8. }
  rewrite token_in_answer_decodable by done. f_equal.
  unfold answer_has_token. clear Hascii.
  induction Hdec as [|rdata rest Hrd _ IH]; [done|].
  simpl. by rewrite IH, <- token_among_valid.
Qed.

(** The lookup URL is put together from the name and the token as they
    are, without escaping: a name that contains [&content=] moves the
    border between name and token. *)
Theorem lookup_url_unescaped (zone_id a b c : string) :
  lookup_url zone_id (a +:+ "&content=" +:+ b) c =
  lookup_url zone_id a (b +:+ "&content=" +:+ c).
Proof. unfold lookup_url. by rewrite !append_assoc. Qed.

(** ** The poll loop ends when the token is seen *)

Section PollEnds.

Variable P : Platform.
Variable G : Globals.

(** When the check misses [k] times and then hits, the poll loop returns
    normally as soon as it has fuel for [k + 1] rounds, after [k + 1]
    queries and [k] sleeps of 30 seconds; more fuel changes nothing. *)
Theorem poll_returns_after (name token : string) (k extra : nat) (s : Env P) :
  hits_after P G name token k s ->
  exists s' t,
    wait_propagated P G (S k + extra) name token s = (Ok tt, s', t) /\
    dns_queries t = S k /\
    sleeps t = replicate k 30.
Proof.
  revert s. induction k as [|k IH]; intros s Hk.
  - destruct (has_dns_propagated_run P G name token s) as (logs & Hrun & Hlogs).
    simpl in Hk. rewrite Hk in Hrun.
    cbn [Nat.add wait_propagated]. rewrite (bind_ok _ _ _ _ _ _ Hrun).
    cbn [negb]. unfold ret. rewrite app_nil_r.
    eexists _, _. split; [reflexivity|].
    assert (dns_queries logs = 0%nat /\ sleeps logs = []) as [Hql Hsll].
    { clear -Hlogs. unfold dns_queries.
      induction Hlogs as [|e l He _ [IH1 IH2]]; [done|].
      destruct e; simpl in *; done. }
    split.
    + unfold dns_queries in *. cbn [List.filter is_dns length]. by rewrite Hql.
    + unfold sleeps in *. cbn [omap]. exact Hsll.
  - destruct (has_dns_propagated_run P G name token s) as (logs & Hrun & Hlogs).
    destruct Hk as [Hv Hk]. rewrite Hv in Hrun.
    destruct (IH _ Hk) as (s' & t & Hwait & Hq & Hsl).
    change (S (S k) + extra)%nat with (S (S k + extra)).
    cbn [wait_propagated]. rewrite (bind_ok _ _ _ _ _ _ Hrun).
    cbn [negb]. unfold bind, log, emit, time_sleep. cbn -[wait_propagated Nat.add].
    rewrite Hwait.
    eexists _, _. split; [reflexivity|].
    assert (dns_queries logs = 0%nat /\ sleeps logs = []) as [Hql Hsll].
    { clear -Hlogs. unfold dns_queries.
      induction Hlogs as [|e l He _ [IH1 IH2]]; [done|].
      destruct e; simpl in *; done. }
    split.
    + unfold dns_queries in *. cbn [List.filter is_dns].
      rewrite List.filter_app. cbn [List.filter is_dns length].
      rewrite length_app, Hql, Hq. done.
    + change (sleeps ([EvDns (asked_servers G) name
                         (dns_resolve P (asked_servers G) name s).1] ++ logs ++
                      [EvLog INFO " + DNS not propagated, waiting 30s..."; EvSleep 30] ++ t) =
              30 :: replicate k 30).
      unfold sleeps in *. rewrite !omap_app, Hsll, Hsl. done.
Qed.

End PollEnds.

(** ** The further properties on concrete worlds *)

Section OnMoreExamples.

Import Cloudflare Examples.


(** The module body on the environment of the scenario. *)
Lemma module_init_globals_witness :
  CF_HEADERS G_token <> [] /\ environ G_token = env_token.
Proof.
  destruct (module_init_globals CF env_token w_empty G_token w_empty [])
    as (_ & _ & He & Hne & _).
  - vm_compute. reflexivity.
  - split; [exact Hne|exact He].
Defined.


(** A lookup on a world without records. *)
Lemma lookup_tolerates_empty_list_witness :
  _get_txt_record_id CF token_a (JStr "z1") challenge_name "tok123" w_empty =
    (Ok JNull, w_empty,
     [EvHttp (mkRequest GET (lookup_url "z1" challenge_name "tok123") token_a None)
             (success (JArr []));
      EvLog DEBUG (" + Unable to locate record named " +:+ challenge_name)]).
Proof.
  apply (lookup_tolerates_empty_list CF token_a (JStr "z1") challenge_name "tok123"
           w_empty 200 [("success", JBool true); ("result", JArr [])] w_empty).
  - vm_compute. reflexivity.
  - reflexivity.
  - reflexivity.
Defined.

(** Cleaning up a challenge that was never deployed. *)
Lemma delete_nothing_found_witness :
  (delete_txt_record CF G_token first_triple w_empty).1.1 = Ok tt /\
  delete_calls (delete_txt_record CF G_token first_triple w_empty).2 = 0%nat.
Proof.
  destruct (delete_nothing_found CF G_token "example.com" "ignored-payload" "tok123" []
              w_empty (token_a, JStr "z1") w_empty
              (_get_zone_id CF G_token "example.com" w_empty).2
              JNull w_empty
              (_get_txt_record_id CF token_a (JStr "z1") (record_name "example.com")
                 "tok123" w_empty).2) as [Hrun Hcalls].
  - done.
  - vm_compute. reflexivity.
  - vm_compute. reflexivity.
  - reflexivity.
  - unfold first_triple. rewrite Hrun. split; [reflexivity|].
    vm_compute. reflexivity.
Defined.

(** An operation the table does not have. *)
Lemma main_unknown_operation_witness :
  main CF G_token 3 ["frobnicate"; "example.com"] w_empty = (Ok tt, w_empty, []).
Proof.
  apply (main_unknown_operation CF G_token 3 "frobnicate" ["example.com"] w_empty).
  unfold operation_names. intros H.
  repeat (apply elem_of_cons in H as [H|H]; [discriminate H|]).
  by apply elem_of_nil in H.
Defined.



(** A first token the provider refuses ends the batch at its first group. *)
Lemma batch_aborts_on_first_error_witness :
  create_all_txt_records CF G_two_tokens 3 batch w_empty =
    (Raise (HTTPError 403), w_empty,
     [] ++ (create_txt_record CF G_two_tokens first_triple w_empty).2).
Proof.
  apply (proj1 (batch_aborts_on_first_error CF G_two_tokens 3 batch
                  [] [["example.org"; "ignored-payload"; "tok456"]] first_triple
                  w_empty w_empty w_empty []
                  (create_txt_record CF G_two_tokens first_triple w_empty).2
                  (HTTPError 403) ltac:(reflexivity)) 10).
  - reflexivity.
  - reflexivity.
  - vm_compute. reflexivity.
Defined.

(** A world without records: five rounds of fuel, five misses. *)
Lemma poll_never_gives_up_witness :
  exists s' t,
    wait_propagated CF G_token 5 challenge_name "tok123" w_empty = (OutOfFuel, s', t) /\
    records s' = [] /\
    dns_queries t = 5%nat /\
    sleeps t = replicate 5 30.
Proof.
  apply (poll_never_gives_up CF G_token challenge_name "tok123"
           (fun w : World => records w = [])).
  - intros s Hs. simpl. unfold dns. rewrite Hs.
    destruct (clock s <? visible_at s); done.
  - reflexivity.
Defined.

(** A record the resolvers see after 30 seconds: one miss, then a hit. *)
Lemma poll_returns_after_witness :
  exists s' t,
    wait_propagated CF G_token (2 + 7) challenge_name "tok123" w_pending = (Ok tt, s', t) /\
    dns_queries t = 2%nat /\
    sleeps t = replicate 1 30.
Proof.
  apply (poll_returns_after CF G_token challenge_name "tok123" 1 7 w_pending).
  split; vm_compute; reflexivity.
Defined.

(** Create, then delete, on a world without records. *)
Lemma create_then_delete_witness :
  exists w2 t2,
    delete_txt_record CF G_token first_triple
      (create_txt_record CF G_token first_triple w_empty).1.2 = (Ok tt, w2, t2) /\
    records w2 = records w_empty /\
    delete_calls t2 = 1%nat.
Proof.
  apply (create_then_delete fld_of_host G_token "example.com" "ignored-payload" "tok123"
           w_empty _ (create_txt_record CF G_token first_triple w_empty).2).
  - done.
  - intros zone_id. constructor.
  - intros zone_id. constructor.
  - vm_compute. reflexivity.
Defined.

(** The token in the second record. *)
Lemma ascii_answer_scan_witness :
  token_in_answer "tok123" [["other"]; ["tok123"; "x"]] = Ok true.
Proof.
  apply (ascii_answer_scan "tok123" [["other"]; ["tok123"; "x"]]).
  repeat constructor.
Defined.

End OnMoreExamples.
